(** * The memory wall: gesture state machine, selection, layout and geometry

    A shallow embedding of the interaction core of the "2025 memory wall"
    React/three.js component (App.tsx, month-film revision):

    - [MediaPipe]: the recognizer boundary and [countExtendedFingers];
    - [App]: the component state (React state, refs and the effects that
      synchronise them), the gesture block of [animate], [handleRaycast],
      the carousel handlers, [enableCam] and [handleUpload];
    - [Progress]: the per-frame update of the [uProgress] uniform;
    - [Layout]: [generateTextLayout];
    - [Geometry]: [mergeBufferGeometries];
    - [Polaroid]: the crop of [createPolaroidTexture];
    - [FilmStrip]: the strip layout of [animate] in film mode;
    - [Shaders]: the easing functions of the vertex shaders;
    - [Scatter]: the sampling of the chaos positions.

    JavaScript numbers that hold coordinates are modelled as rationals
    ([Q]) where the code only adds, multiplies and compares them, and as
    real numbers ([R]) where it calls [Math.exp]; integer-valued numbers
    (ids, counts, millisecond timestamps) are [Z] or [nat]. *)

From Stdlib Require Import ZArith QArith Qround Reals Psatz Lia Bool String List.
From stdpp Require Import base list numbers strings pretty.
Import ListNotations.

(* ===================================================================== *)
(** * Part I: definitions                                                 *)
(* ===================================================================== *)

(** ** The recognizer boundary *)

Module MediaPipe.

Local Open Scope Q_scope.

(** One landmark in normalized image space; [y] grows downward. *)
Record NormalizedLandmark := { x : Q; y : Q }.

(** A detected hand: the recognizer always reports 21 landmarks per
    hand, so [landmarks[i]] is defined for every index the code reads. *)
Record Hand := {
  marks : list NormalizedLandmark;
  marks_len : length marks = 21%nat
}.

(** [landmarks[i]] for [i < 21]; the default is never reached there. *)
Definition at_ (landmarks : Hand) (i : nat) : NormalizedLandmark :=
  nth i (marks landmarks) {| x := 0; y := 0 |}.

Record Category := { categoryName : string }.

(** The result of [recognizeForVideo]: per detected hand a non-empty
    ranking of gesture categories (best first) and, separately, the
    landmark sets of the detected hands. *)
Record GestureRecognizerResult := {
  gestures : list (Category * list Category);
  landmarks : list Hand
}.

Definition lt_num (a b : Q) : bool := if Qlt_le_dec a b then true else false.

(** const countExtendedFingers = (landmarks: any[]) => { ... } *)
Definition countExtendedFingers (landmarks : Hand) : Z :=
  let count := 0%Z in
  let count := if lt_num (y (at_ landmarks 8)) (y (at_ landmarks 6)) then (count + 1)%Z else count in
  let count := if lt_num (y (at_ landmarks 12)) (y (at_ landmarks 10)) then (count + 1)%Z else count in
  let count := if lt_num (y (at_ landmarks 16)) (y (at_ landmarks 14)) then (count + 1)%Z else count in
  let count := if lt_num (y (at_ landmarks 20)) (y (at_ landmarks 18)) then (count + 1)%Z else count in
  let count := if lt_num (y (at_ landmarks 4)) (y (at_ landmarks 2)) then (count + 1)%Z else count in
  count.

(** What one digit contributes to the count: 1 when its tip lies above
    its lower joint ([tip.y < joint.y]), else 0. *)
Definition digit (h : Hand) (tip joint : nat) : Z :=
  Z.b2z (lt_num (y (at_ h tip)) (y (at_ h joint))).

(** The finger count that the gesture block of [animate] derives from
    the detected hands (lines "const count1 = ..." to the end of the
    "Special logic" block); [None] when no hand is detected. *)
Definition totalCount (hands : list Hand) : option Z :=
  match hands with
  | [] => None
  | h0 :: rest =>
      let count1 := countExtendedFingers h0 in
      let totalCount := count1 in
      let totalCount :=
        match rest with
        | h1 :: _ => (totalCount + countExtendedFingers h1)%Z
        | [] => totalCount
        end in
      let totalCount :=
        match rest with
        | h1 :: _ =>
            let c1 := countExtendedFingers h0 in
            let c2 := countExtendedFingers h1 in
            let totalCount :=
              if ((c1 =? 1) && (c2 =? 1))%Z then 11%Z else totalCount in
            let totalCount :=
              if ((c1 =? 1) && (c2 =? 2) || (c1 =? 2) && (c2 =? 1))%Z
              then 12%Z else totalCount in
            totalCount
        | [] => totalCount
        end in
      Some totalCount
  end.

(** Synthetic landmark sets: a hand whose digits are extended as told.
    Every lower joint sits at y = 1/2; an extended tip at 1/4 (above
    it), a folded tip at 3/4. *)
Definition tip_y (extended : bool) : Q := if extended then 1#4 else 3#4.

Definition synthetic_marks (index middle ring pinky thumb : bool)
  : list NormalizedLandmark :=
  let j := {| x := 1#2; y := 1#2 |} in
  let t e := {| x := 1#2; y := tip_y e |} in
  [ j; j; j; j; t thumb; j; j; j; t index; j; j; j; t middle;
    j; j; j; t ring; j; j; j; t pinky ].

Definition synthetic_hand (index middle ring pinky thumb : bool) : Hand :=
  {| marks := synthetic_marks index middle ring pinky thumb;
     marks_len := eq_refl |}.

End MediaPipe.

(** ** The component state and its handlers *)

Module App.

Import MediaPipe.
Local Open Scope Z_scope.

Definition PHOTO_COUNT : Z := 150.
Definition DECO_COUNT : Z := 250.
Definition TOTAL_ITEMS : Z := PHOTO_COUNT + DECO_COUNT.

(** *** Photo textures *)

Record HTMLImageElement := { src : string }.

(** What [createPolaroidTexture] was called with; the canvas drawing
    itself belongs to the renderer boundary. *)
Record Texture := {
  content : string + HTMLImageElement;
  color : string;
  monthLabel : option string
}.

Definition createPolaroidTexture
  (content : string + HTMLImageElement) (color : string)
  (monthLabel : option string) : Texture :=
  {| content := content; color := color; monthLabel := monthLabel |}.

Module Item.
Record t := { tex : Texture; month : Z }.
End Item.

(** *** React state, refs and instance variables of [App] *)

Record State := {
  isFormed : bool;                 (* useState(false) *)
  isFormedRef : bool;
  uiActiveId : Z;                  (* useState(-1) *)
  activeMonth : option Z;          (* useState<number | null>(null) *)
  activeMonthRef : option Z;
  cameraActive : bool;
  cameraActiveRef : bool;
  gestureStatus : string;
  lastVideoTimeRef : Z;
  userTextures : list Item.t;
  sceneReady : bool;
  handPos : Q * Q;                 (* interactionState.current.handPos *)
  activePhotoId : Z;               (* interactionState.current.activePhotoId *)
  lastStateChangeTime : Z          (* useRef(0) *)
}.

Definition initial : State :=
  {| isFormed := false; isFormedRef := false; uiActiveId := -1;
     activeMonth := None; activeMonthRef := None;
     cameraActive := false; cameraActiveRef := false;
     gestureStatus := "None"; lastVideoTimeRef := -1;
     userTextures := []; sceneReady := false;
     handPos := (0%Q, 0%Q); activePhotoId := -1;
     lastStateChangeTime := 0 |}.

(** State setters. A [setX v] queues the new value; nothing in a handler
    reads the React state itself (handlers read the refs), so the queued
    value is stored in the state field at once and reaches the refs only
    in [render]. *)
Definition setFormed (v : bool) (s : State) : State :=
  {| isFormed := v; isFormedRef := isFormedRef s; uiActiveId := uiActiveId s;
     activeMonth := activeMonth s; activeMonthRef := activeMonthRef s;
     cameraActive := cameraActive s; cameraActiveRef := cameraActiveRef s;
     gestureStatus := gestureStatus s; lastVideoTimeRef := lastVideoTimeRef s;
     userTextures := userTextures s; sceneReady := sceneReady s;
     handPos := handPos s; activePhotoId := activePhotoId s;
     lastStateChangeTime := lastStateChangeTime s |}.

Definition set_isFormedRef (v : bool) (s : State) : State :=
  {| isFormed := isFormed s; isFormedRef := v; uiActiveId := uiActiveId s;
     activeMonth := activeMonth s; activeMonthRef := activeMonthRef s;
     cameraActive := cameraActive s; cameraActiveRef := cameraActiveRef s;
     gestureStatus := gestureStatus s; lastVideoTimeRef := lastVideoTimeRef s;
     userTextures := userTextures s; sceneReady := sceneReady s;
     handPos := handPos s; activePhotoId := activePhotoId s;
     lastStateChangeTime := lastStateChangeTime s |}.

Definition setUiActiveId (v : Z) (s : State) : State :=
  {| isFormed := isFormed s; isFormedRef := isFormedRef s; uiActiveId := v;
     activeMonth := activeMonth s; activeMonthRef := activeMonthRef s;
     cameraActive := cameraActive s; cameraActiveRef := cameraActiveRef s;
     gestureStatus := gestureStatus s; lastVideoTimeRef := lastVideoTimeRef s;
     userTextures := userTextures s; sceneReady := sceneReady s;
     handPos := handPos s; activePhotoId := activePhotoId s;
     lastStateChangeTime := lastStateChangeTime s |}.

Definition setActiveMonth (v : option Z) (s : State) : State :=
  {| isFormed := isFormed s; isFormedRef := isFormedRef s; uiActiveId := uiActiveId s;
     activeMonth := v; activeMonthRef := activeMonthRef s;
     cameraActive := cameraActive s; cameraActiveRef := cameraActiveRef s;
     gestureStatus := gestureStatus s; lastVideoTimeRef := lastVideoTimeRef s;
     userTextures := userTextures s; sceneReady := sceneReady s;
     handPos := handPos s; activePhotoId := activePhotoId s;
     lastStateChangeTime := lastStateChangeTime s |}.

Definition set_activeMonthRef (v : option Z) (s : State) : State :=
  {| isFormed := isFormed s; isFormedRef := isFormedRef s; uiActiveId := uiActiveId s;
     activeMonth := activeMonth s; activeMonthRef := v;
     cameraActive := cameraActive s; cameraActiveRef := cameraActiveRef s;
     gestureStatus := gestureStatus s; lastVideoTimeRef := lastVideoTimeRef s;
     userTextures := userTextures s; sceneReady := sceneReady s;
     handPos := handPos s; activePhotoId := activePhotoId s;
     lastStateChangeTime := lastStateChangeTime s |}.

Definition setCameraActive (v : bool) (s : State) : State :=
  {| isFormed := isFormed s; isFormedRef := isFormedRef s; uiActiveId := uiActiveId s;
     activeMonth := activeMonth s; activeMonthRef := activeMonthRef s;
     cameraActive := v; cameraActiveRef := cameraActiveRef s;
     gestureStatus := gestureStatus s; lastVideoTimeRef := lastVideoTimeRef s;
     userTextures := userTextures s; sceneReady := sceneReady s;
     handPos := handPos s; activePhotoId := activePhotoId s;
     lastStateChangeTime := lastStateChangeTime s |}.

Definition set_cameraActiveRef (v : bool) (s : State) : State :=
  {| isFormed := isFormed s; isFormedRef := isFormedRef s; uiActiveId := uiActiveId s;
     activeMonth := activeMonth s; activeMonthRef := activeMonthRef s;
     cameraActive := cameraActive s; cameraActiveRef := v;
     gestureStatus := gestureStatus s; lastVideoTimeRef := lastVideoTimeRef s;
     userTextures := userTextures s; sceneReady := sceneReady s;
     handPos := handPos s; activePhotoId := activePhotoId s;
     lastStateChangeTime := lastStateChangeTime s |}.

Definition setGestureStatus (v : string) (s : State) : State :=
  {| isFormed := isFormed s; isFormedRef := isFormedRef s; uiActiveId := uiActiveId s;
     activeMonth := activeMonth s; activeMonthRef := activeMonthRef s;
     cameraActive := cameraActive s; cameraActiveRef := cameraActiveRef s;
     gestureStatus := v; lastVideoTimeRef := lastVideoTimeRef s;
     userTextures := userTextures s; sceneReady := sceneReady s;
     handPos := handPos s; activePhotoId := activePhotoId s;
     lastStateChangeTime := lastStateChangeTime s |}.

Definition set_lastVideoTimeRef (v : Z) (s : State) : State :=
  {| isFormed := isFormed s; isFormedRef := isFormedRef s; uiActiveId := uiActiveId s;
     activeMonth := activeMonth s; activeMonthRef := activeMonthRef s;
     cameraActive := cameraActive s; cameraActiveRef := cameraActiveRef s;
     gestureStatus := gestureStatus s; lastVideoTimeRef := v;
     userTextures := userTextures s; sceneReady := sceneReady s;
     handPos := handPos s; activePhotoId := activePhotoId s;
     lastStateChangeTime := lastStateChangeTime s |}.

Definition setUserTextures (v : list Item.t) (s : State) : State :=
  {| isFormed := isFormed s; isFormedRef := isFormedRef s; uiActiveId := uiActiveId s;
     activeMonth := activeMonth s; activeMonthRef := activeMonthRef s;
     cameraActive := cameraActive s; cameraActiveRef := cameraActiveRef s;
     gestureStatus := gestureStatus s; lastVideoTimeRef := lastVideoTimeRef s;
     userTextures := v; sceneReady := sceneReady s;
     handPos := handPos s; activePhotoId := activePhotoId s;
     lastStateChangeTime := lastStateChangeTime s |}.

Definition setSceneReady (v : bool) (s : State) : State :=
  {| isFormed := isFormed s; isFormedRef := isFormedRef s; uiActiveId := uiActiveId s;
     activeMonth := activeMonth s; activeMonthRef := activeMonthRef s;
     cameraActive := cameraActive s; cameraActiveRef := cameraActiveRef s;
     gestureStatus := gestureStatus s; lastVideoTimeRef := lastVideoTimeRef s;
     userTextures := userTextures s; sceneReady := v;
     handPos := handPos s; activePhotoId := activePhotoId s;
     lastStateChangeTime := lastStateChangeTime s |}.

Definition set_handPos (v : Q * Q) (s : State) : State :=
  {| isFormed := isFormed s; isFormedRef := isFormedRef s; uiActiveId := uiActiveId s;
     activeMonth := activeMonth s; activeMonthRef := activeMonthRef s;
     cameraActive := cameraActive s; cameraActiveRef := cameraActiveRef s;
     gestureStatus := gestureStatus s; lastVideoTimeRef := lastVideoTimeRef s;
     userTextures := userTextures s; sceneReady := sceneReady s;
     handPos := v; activePhotoId := activePhotoId s;
     lastStateChangeTime := lastStateChangeTime s |}.

Definition set_activePhotoId (v : Z) (s : State) : State :=
  {| isFormed := isFormed s; isFormedRef := isFormedRef s; uiActiveId := uiActiveId s;
     activeMonth := activeMonth s; activeMonthRef := activeMonthRef s;
     cameraActive := cameraActive s; cameraActiveRef := cameraActiveRef s;
     gestureStatus := gestureStatus s; lastVideoTimeRef := lastVideoTimeRef s;
     userTextures := userTextures s; sceneReady := sceneReady s;
     handPos := handPos s; activePhotoId := v;
     lastStateChangeTime := lastStateChangeTime s |}.

Definition set_lastStateChangeTime (v : Z) (s : State) : State :=
  {| isFormed := isFormed s; isFormedRef := isFormedRef s; uiActiveId := uiActiveId s;
     activeMonth := activeMonth s; activeMonthRef := activeMonthRef s;
     cameraActive := cameraActive s; cameraActiveRef := cameraActiveRef s;
     gestureStatus := gestureStatus s; lastVideoTimeRef := lastVideoTimeRef s;
     userTextures := userTextures s; sceneReady := sceneReady s;
     handPos := handPos s; activePhotoId := activePhotoId s;
     lastStateChangeTime := v |}.

(** const setActivePhoto = (id: number) => { ... } *)
Definition setActivePhoto (id : Z) (s : State) : State :=
  let s := set_activePhotoId id s in
  setUiActiveId id s.

(** *** Carousel handlers

    JavaScript's [%] truncates toward zero: [Z.rem]. *)

Definition handleNext (s : State) : State :=
  let nextId := activePhotoId s in
  if nextId =? -1 then s
  else
    let nextId := Z.rem (nextId + 1) PHOTO_COUNT in
    setActivePhoto nextId s.

Definition handlePrev (s : State) : State :=
  let prevId := activePhotoId s in
  if prevId =? -1 then s
  else
    let prevId := Z.rem (prevId - 1 + PHOTO_COUNT) PHOTO_COUNT in
    setActivePhoto prevId s.

Definition handleClose (s : State) : State := setActivePhoto (-1) s.

(** *** Rendering: the effects that follow a state change

    After a handler has run, React renders once and runs the effects
    whose dependency changed: the three "Sync Refs" effects and the
    effect on [activeMonth], which forces the scattered state and clears
    the selection when a month is set. The latter's own state changes
    cause one more render, which syncs [isFormedRef] again. The ref
    [activeMonthRef] holds the month of the previous render, so "the
    dependency changed" is [activeMonth <> activeMonthRef]. *)

Definition month_eqb (a b : option Z) : bool :=
  match a, b with
  | Some m, Some n => m =? n
  | None, None => true
  | _, _ => false
  end.

Definition render (s : State) : State :=
  let monthChanged := negb (month_eqb (activeMonth s) (activeMonthRef s)) in
  let s := set_isFormedRef (isFormed s) s in
  let s := set_cameraActiveRef (cameraActive s) s in
  let s := set_activeMonthRef (activeMonth s) s in
  if monthChanged then
    match activeMonth s with
    | Some _ =>
        let s := setFormed false s in
        let s := setActivePhoto (-1) s in
        set_isFormedRef (isFormed s) s
    | None => s
    end
  else s.

(** *** The gesture block of [animate] *)

(** The three readings of [Date.now()] taken while one frame is
    processed: the frame timestamp, the reading compared with the
    cooldown, and the reading stored by the fist and palm branches. *)
Record Clock := { nowInMs : Z; nowGate : Z; nowStamp : Z }.

Definition at_ms (t : Z) : Clock :=
  {| nowInMs := t; nowGate := t; nowStamp := t |}.

(** "1. Priority: Chaos -> Film (Month Selection)" *)
Definition monthSelection (now : Clock) (results : GestureRecognizerResult)
  (s : State) : State :=
  if negb (isFormedRef s) then
    match totalCount (landmarks results) with
    | Some totalCount =>
        if nowGate now - lastStateChangeTime s >? 2000 then
          if (totalCount >=? 1) && (totalCount <=? 12) then
            if negb (month_eqb (activeMonthRef s) (Some totalCount)) then
              let s := setActiveMonth (Some totalCount) s in
              setGestureStatus ("Month: " +:+ pretty totalCount) s
            else s
          else s
        else s
    | None => s
    end
  else s.

(** "2. Priority: Closed Fist" and "3. Priority: Open Palm" *)
Definition fistOrPalm (now : Clock) (name : string) (s : State) : State :=
  if String.eqb name "Closed_Fist" then
    if negb (isFormedRef s) || negb (month_eqb (activeMonthRef s) None) then
      let s := setFormed true s in
      let s := setActiveMonth None s in
      set_lastStateChangeTime (nowStamp now) s
    else s
  else if String.eqb name "Open_Palm" then
    if isFormedRef s then
      let s := setFormed false s in
      set_lastStateChangeTime (nowStamp now) s
    else s
  else s.

(** "Hand Tracking for Parallax" *)
Definition parallax (results : GestureRecognizerResult) (s : State) : State :=
  match landmarks results with
  | hand :: _ =>
      let indexTip := at_ hand 8 in
      let handX := ((1 - x indexTip) * 2 - 1)%Q in
      let handY := (- (y indexTip) * 2 + 1)%Q in
      set_handPos (handX, handY) s
  | [] => s
  end.

(** The "Gesture Logic" block. [ready] stands for
    [gestureRecognizerRef.current && videoRef.current &&
     videoRef.current.readyState === 4]; [results] is what
    [recognizeForVideo] returns for this frame. *)
Definition gestureLogic (ready : bool) (now : Clock)
  (results : GestureRecognizerResult) (s : State) : State :=
  let camActive := cameraActiveRef s in
  if camActive && ready then
    if negb (nowInMs now =? lastVideoTimeRef s) then
      let s := set_lastVideoTimeRef (nowInMs now) s in
      match gestures results with
      | (top, _) :: _ =>
          let name := categoryName top in
          let s := setGestureStatus name s in
          let s := monthSelection now results s in
          let s := fistOrPalm now name s in
          parallax results s
      | [] => setGestureStatus "None" s
      end
    else s
  else s.

(** *** Scene objects and [handleRaycast] *)

Module Obj.
Record t := { id : Z; mesh : nat; isDeco : bool; month : Z }.
End Obj.

(** The object pushed by iteration [i] of the construction loop (the
    fields the handlers read); mesh [i] is the [i]-th entry of [meshes]. *)
Definition make_object (userTextures : list Item.t) (i : nat) : Obj.t :=
  let isPhoto := Z.of_nat i <? PHOTO_COUNT in
  let photoMonth :=
    if isPhoto then
      match userTextures !! i with
      | Some it => Item.month it
      | None => Z.rem (Z.of_nat i) 12 + 1
      end
    else 0 in
  {| Obj.id := Z.of_nat i; Obj.mesh := i; Obj.isDeco := negb isPhoto;
     Obj.month := photoMonth |}.

Definition build_objects (userTextures : list Item.t) : list Obj.t :=
  map (make_object userTextures) (seq 0 (Z.to_nat TOTAL_ITEMS)).

(** What one tap looks like to [handleRaycast]: the mesh of the nearest
    ray intersection ([intersects[0].object], if any), the viewport
    width, for every mesh the distance in normalized device space
    between its projected position and the tap
    ([new THREE.Vector2(screenPos.x, screenPos.y).distanceTo(mouse)]),
    and the value [Math.random()] returns if it is called. *)
Record Tap := {
  hit : option nat;
  innerWidth : Z;
  distanceTo : nat -> Q;
  random : Q
}.

(** "1. Direct hit" *)
Definition directHit (objects : list Obj.t) (tap : Tap) : Z :=
  let targetId := -1 in
  match hit tap with
  | Some m =>
      match find (fun p => Nat.eqb (Obj.mesh p) m) objects with
      | Some obj => if negb (Obj.isDeco obj) then Obj.id obj else targetId
      | None => targetId
      end
  | None => targetId
  end.

(** The body of [objects.forEach] in "2. Mobile Smart Magnetism"; the
    accumulator is the pair [(closestDist, targetId)]. *)
Definition magnet_step (tap : Tap) (acc : Q * Z) (obj : Obj.t) : Q * Z :=
  let '(closestDist, targetId) := acc in
  if negb (Obj.isDeco obj) then
    let dist := distanceTo tap (Obj.mesh obj) in
    if lt_num dist closestDist then (dist, Obj.id obj)
    else (closestDist, targetId)
  else (closestDist, targetId).

Definition magnetism (objects : list Obj.t) (tap : Tap) (targetId : Z) : Z :=
  let closestDist := (15 # 100)%Q in
  snd (fold_left (magnet_step tap) objects (closestDist, targetId)).

Definition handleRaycast (objects : list Obj.t) (tap : Tap) (s : State)
  : State :=
  match activeMonthRef s with
  | Some _ => s
  | None =>
      let targetId := directHit objects tap in
      let targetId :=
        if (targetId =? -1) && (innerWidth tap <? 768) then
          let targetId := magnetism objects tap targetId in
          if (targetId =? -1) && (activePhotoId s =? -1) then
            Qfloor (random tap * inject_Z PHOTO_COUNT)
          else targetId
        else targetId in
      if negb (targetId =? -1) then setActivePhoto targetId s else s
  end.

(** *** [enableCam]

    [loaded] stands for [gestureRecognizerRef.current]; [granted] tells
    whether [getUserMedia] resolves and the video then fires
    [loadeddata]. The handler reads the rendered [cameraActive]. *)
Definition enableCam (loaded granted : bool) (s : State) : State :=
  if negb loaded then s
  else if cameraActive s then
    let s := setCameraActive false s in
    let s := setFormed false s in
    setActiveMonth None s
  else if granted then setCameraActive true s
  else s.

(** *** [handleUpload] *)

(** [new Date(file.lastModified)], as far as the handler reads it. *)
Record Date := { getFullYear : Z; getMonth : Z }.

(** An uploaded file: its date, the data URL the [FileReader] produces,
    and whether the browser can decode that URL as an image. *)
Record File := { lastModified : Date; result : string; decodable : bool }.

(** The variables every callback of one [handleUpload] call closes over. *)
Record Batch := {
  files : list File;
  newItems : list Item.t;
  loadedCount : nat
}.

Definition colors : list string :=
  ["#ff9a9e"; "#a18cd1"; "#fad0c4"; "#fbc2eb"; "#a6c1ee"].

(** [img.onload] for [file]; [rnd] is the value of [Math.random()]. *)
Definition img_onload (file : File) (rnd : Q) (b : Batch) (s : State)
  : Batch * State :=
  let date := lastModified file in
  let month := getMonth date + 1 in
  let monthStr := pretty (getFullYear date) +:+ "." +:+ pretty month in
  let img := {| src := result file |} in
  let randomColor :=
    nth (Z.to_nat (Qfloor (rnd * inject_Z (Z.of_nat (length colors)))))
        colors "" in
  let tex := createPolaroidTexture (inr img) randomColor (Some monthStr) in
  let b := {| files := files b;
              newItems := newItems b ++ [ {| Item.tex := tex; Item.month := month |} ];
              loadedCount := S (loadedCount b) |} in
  if Nat.eqb (loadedCount b) (length (files b)) then
    let s := setUserTextures (userTextures s ++ newItems b) s in
    let s := setSceneReady (negb (sceneReady s)) s in
    (b, s)
  else (b, s).

(** [reader.onload] for the [i]-th file: an image element is created
    and given the data URL. If the URL decodes, [img.onload] fires; if
    it does not, the browser fires [error] on the image, for which the
    handler registers no listener. *)
Definition reader_onload (i : nat) (rnd : Q) (bs : Batch * State)
  : Batch * State :=
  let '(b, s) := bs in
  match files b !! i with
  | Some file => if decodable file then img_onload file rnd b s else (b, s)
  | None => (b, s)
  end.

(** One [handleUpload] call together with the callbacks it starts.
    [completions] lists, in the order in which the readers complete,
    the index of the file and the random number drawn for its colour. *)
Definition handleUpload (selected : list File) (completions : list (nat * Q))
  (s : State) : State :=
  if Nat.ltb 0 (length selected) then
    let b := {| files := selected; newItems := []; loadedCount := 0 |} in
    snd (fold_left (fun bs c => reader_onload (fst c) (snd c) bs)
                   completions (b, s))
  else s.

(** *** Events and runs

    Handlers run to completion one at a time; React renders in between. *)
Inductive Event :=
| Frame (ready : bool) (now : Clock) (results : GestureRecognizerResult)
| Click (tap : Tap)
| Next
| Prev
| Close
| CamButton (loaded granted : bool)
| Upload (selected : list File) (completions : list (nat * Q)).

Definition handle (e : Event) (s : State) : State :=
  match e with
  | Frame ready now results => gestureLogic ready now results s
  | Click tap => handleRaycast (build_objects (userTextures s)) tap s
  | Next => handleNext s
  | Prev => handlePrev s
  | Close => handleClose s
  | CamButton loaded granted => enableCam loaded granted s
  | Upload selected completions => handleUpload selected completions s
  end.

Definition step (s : State) (e : Event) : State := render (handle e s).

Definition run (es : list Event) : State := fold_left step es initial.

(** The refs agree with the rendered state. *)
Definition synced (s : State) : Prop :=
  isFormedRef s = isFormed s /\ activeMonthRef s = activeMonth s
  /\ cameraActiveRef s = cameraActive s /\ uiActiveId s = activePhotoId s.

(** Film mode excludes the formed state and a selection. *)
Definition exclusive (s : State) : Prop :=
  activeMonth s <> None -> isFormed s = false /\ activePhotoId s = -1.

(** The item [img.onload] pushes for [file] when [Math.random()]
    returns [rnd]. *)
Definition polaroid_of (file : File) (rnd : Q) : Item.t :=
  let date := lastModified file in
  let month := getMonth date + 1 in
  let monthStr := pretty (getFullYear date) +:+ "." +:+ pretty month in
  let randomColor :=
    nth (Z.to_nat (Qfloor (rnd * inject_Z (Z.of_nat (length colors)))))
        colors "" in
  {| Item.tex := createPolaroidTexture (inr {| src := result file |})
                   randomColor (Some monthStr);
     Item.month := month |}.

(** The items the completions push, in order: one for every completion
    whose file exists and decodes. *)
Definition completed_items (selected : list File) (completions : list (nat * Q))
  : list Item.t :=
  omap (fun c => file ← selected !! fst c;
                 if decodable file then Some (polaroid_of file (snd c))
                 else None) completions.

(** The callbacks of one batch, run in completion order. *)
Definition upload_fold (completions : list (nat * Q)) (bs : Batch * State)
  : Batch * State :=
  fold_left (fun bs c => reader_onload (fst c) (snd c) bs) completions bs.

(** The batch after one more image has loaded. *)
Definition loaded (file : File) (rnd : Q) (b : Batch) : Batch :=
  {| files := files b; newItems := newItems b ++ [polaroid_of file rnd];
     loadedCount := S (loadedCount b) |}.

(** What the last [img.onload] of a batch does to the state. *)
Definition commit (items : list Item.t) (s : State) : State :=
  setSceneReady (negb (sceneReady s))
    (setUserTextures (userTextures s ++ items) s).

(** [Math.random()] returns a number in the interval from 0 (included)
    to 1 (excluded); an event is well formed when the random number it
    carries is. *)
Definition unit_interval (r : Q) : Prop := (0 <= r < 1)%Q.

Definition well_formed (e : Event) : Prop :=
  match e with
  | Click tap => unit_interval (random tap)
  | Upload _ completions => Forall (fun c => unit_interval (snd c)) completions
  | _ => True
  end.

(** A session in which the camera has been switched on. *)
Definition camera_on : State := run [CamButton true true].

(** A frame with the given top gesture label and hands. *)
Definition frame (t : Z) (name : string) (hands : list Hand) : Event :=
  Frame true (at_ms t)
    {| gestures := [({| categoryName := name |}, [])]; landmarks := hands |}.

End App.

(** ** The progress uniform *)

Module Progress.

Local Open Scope R_scope.

(** three.js, [MathUtils.lerp]: [return (1 - t) * x + t * y]. *)
Definition lerp (x y t : R) : R := (1 - t) * x + t * y.

(** const targetP = isFormedRef.current ? 1 : 0; *)
Definition targetP (isFormed : bool) : R := if isFormed then 1 else 0.

(** The "Update Stars" assignment to [uProgress.value] for one frame
    whose [clock.getDelta()] is [delta]. *)
Definition update (isFormed : bool) (delta uProgress : R) : R :=
  lerp uProgress (targetP isFormed) (1 - exp (- 3 * delta)).

(** [n] frames with the same target and the same [delta]. *)
Fixpoint frames (n : nat) (isFormed : bool) (delta uProgress : R) : R :=
  match n with
  | O => uProgress
  | S n' => update isFormed delta (frames n' isFormed delta uProgress)
  end.

End Progress.

(** ** The text layout *)

Module Layout.

Local Open Scope Q_scope.

Record Vector3 := { x : Q; y : Q; z : Q }.

(** [new THREE.Vector3()] *)
Definition origin : Vector3 := {| x := 0; y := 0; z := 0 |}.

#[export] Instance Vector3_inhabited : Inhabited Vector3 := populate origin.

Definition width : Z := 1024.
Definition height : Z := 512.
Definition step : Z := 4.

(** [imageData.data]: the RGBA bytes of the 1024 x 512 canvas, read by
    index. *)
Definition ImageData := Z -> Z.

(** A 2D context, as far as the generator uses it: the pixels that
    [getImageData] returns after [fillText] drew the given string in
    white on black. *)
Definition Context2D := string -> ImageData.

(** [String.fromCharCode(8202)], the hair space, in UTF-8. *)
Definition hair_space : string :=
  String (Ascii.ascii_of_nat 226)
    (String (Ascii.ascii_of_nat 128) (String (Ascii.ascii_of_nat 138) EmptyString)).

(** [text.split('').join(sep)] *)
Fixpoint split_join (sep : string) (text : string) : string :=
  match text with
  | EmptyString => EmptyString
  | String c EmptyString => String c EmptyString
  | String c rest => String c (sep +:+ split_join sep rest)
  end.

(** The values [0, step, 2*step, ...] below [stop] that a loop
    [for (let v = 0; v < stop; v += step)] runs through. *)
Definition strides (stop step : Z) : list Z :=
  (fun k => k * step)%Z <$> seqZ 0 ((stop + step - 1) / step).

(** The body of the two nested scanning loops at pixel [(x, y)]: the
    points it pushes. *)
Definition sample (data : ImageData) (y x : Z) : list Vector3 :=
  let index := ((y * width + x) * 4)%Z in
  if (data index >? 100)%Z then
    let pX := (inject_Z x / inject_Z width - (1 # 2)) * 75 in
    let pY := - (inject_Z y / inject_Z height - (1 # 2)) * 35 in
    [ {| x := pX; y := pY; z := 0 |} ]
  else [].

Definition scan (data : ImageData) : list Vector3 :=
  flat_map (fun y => flat_map (fun x => sample data y x) (strides width step))
           (strides height step).

(** [[points[i], points[j]] = [points[j], points[i]]] *)
Definition swap (i j : nat) (points : list Vector3) : list Vector3 :=
  match points !! i, points !! j with
  | Some pi, Some pj => <[j := pi]> (<[i := pj]> points)
  | _, _ => points
  end.

Section Random.

(** [Math.random()]: the [k]-th call returns [rnd k]. Computations that
    draw random numbers thread the number of calls made so far. *)
Variable rnd : nat -> Q.

Definition Rand (A : Type) : Type := nat -> A * nat.

Definition ret {A} (a : A) : Rand A := fun k => (a, k).

Definition bind {A B} (m : Rand A) (f : A -> Rand B) : Rand B :=
  fun k => let (a, k') := m k in f a k'.

Definition Math_random : Rand Q := fun k => (rnd k, S k).

Notation "'let*' x := m 'in' f" := (bind m (fun x => f))
  (at level 10, x name, m at level 100, f at level 200).

(** [Math.floor(Math.random() * n)] *)
Definition random_below (n : nat) : Rand nat :=
  let* r := Math_random in
  ret (Z.to_nat (Qfloor (r * inject_Z (Z.of_nat n)))).

(** The shuffle loop [for (let i = points.length - 1; i > 0; i--)],
    entered at index [i]. *)
Fixpoint shuffle_from (i : nat) (points : list Vector3) : Rand (list Vector3) :=
  match i with
  | O => ret points
  | S i' =>
      let* j := random_below (i + 1) in
      shuffle_from i' (swap i j points)
  end.

Definition shuffle (points : list Vector3) : Rand (list Vector3) :=
  shuffle_from (length points - 1) points.

(** [(Math.random() - 0.5) * 0.1] *)
Definition jitter : Rand Q :=
  let* r := Math_random in
  ret ((r - (1 # 2)) * (1 # 10)).

(** The body of the result loop for index [i]; [points] is not empty
    there, so [points[i % points.length]] exists. *)
Definition jittered (points : list Vector3) (i : nat) : Rand Vector3 :=
  let p := points !!! (i mod length points)%nat in
  let* jx := jitter in
  let* jy := jitter in
  let* jz := jitter in
  ret {| x := x p + jx; y := y p + jy; z := jz |}.

(** The result loop [for (let i = 0; i < count; i++)], with [n]
    iterations left from index [i] on. *)
Fixpoint fill (n i : nat) (points : list Vector3) : Rand (list Vector3) :=
  match n with
  | O => ret []
  | S n' =>
      let* p := jittered points i in
      let* rest := fill n' (S i) points in
      ret (p :: rest)
  end.

(** const generateTextLayout = (text: string, count: number) => ...
    [ctx] is what [canvas.getContext('2d')] returns. *)
Definition generateTextLayout (ctx : option Context2D) (text : string)
  (count : nat) : Rand (list Vector3) :=
  match ctx with
  | None => ret []
  | Some ctx =>
      let textString := split_join hair_space text in
      let data := ctx textString in
      let points := scan data in
      let* points := shuffle points in
      if Nat.eqb (length points) 0 then ret (replicate count origin)
      else fill count 0 points
  end.

End Random.

(** The design footprint: 75 wide and 35 high around the origin, in
    the plane z = 0. *)
Definition footprint (p : Vector3) : Prop :=
  - (75 # 2) <= x p <= 75 # 2 /\ - (35 # 2) <= y p <= 35 # 2 /\ z p = 0.

(** [p] is [q] moved by at most 0.05 along x and along y and placed at
    most 0.05 from the plane: what the jitter can do to a point. *)
Definition jitter_of (q p : Vector3) : Prop :=
  - (1 # 20) <= x p - x q <= 1 # 20
  /\ - (1 # 20) <= y p - y q <= 1 # 20
  /\ - (1 # 20) <= z p <= 1 # 20.

(** The footprint widened by the jitter. *)
Definition in_bounds (p : Vector3) : Prop :=
  - (75 # 2) - (1 # 20) <= x p <= (75 # 2) + (1 # 20)
  /\ - (35 # 2) - (1 # 20) <= y p <= (35 # 2) + (1 # 20)
  /\ - (1 # 20) <= z p <= 1 # 20.

(** [Math.random()] stays in the interval from 0 to 1 (excluded). *)
Definition unit_random (rnd : nat -> Q) : Prop :=
  forall n, 0 <= rnd n < 1.

End Layout.

(** ** Merging buffer geometries *)

Module Geometry.

Local Open Scope nat_scope.

(** A [THREE.BufferAttribute] over a [Float32Array]. three.js sets
    [count = array.length / itemSize]; the array of a well-formed
    attribute holds a whole number of items. *)
Record BufferAttribute := { array : list Q; itemSize : nat }.

Definition count (a : BufferAttribute) : nat := length (array a) / itemSize a.

(** An index attribute: unsigned integers, one per item;
    [getX(i)] is [array[i]] and [count] the length. *)
Definition Index := list Z.

(** A [THREE.BufferGeometry]: [attributes.position] is present,
    [normal], [uv], [color] and [index] may be missing. *)
Record BufferGeometry := {
  position : BufferAttribute;
  normal : option BufferAttribute;
  uv : option BufferAttribute;
  color : option BufferAttribute;
  index : option Index
}.

(** [new Float32Array(n)] and [new Uint32Array(n)]: zero-filled. *)
Definition Float32Array (n : nat) : list Q := replicate n 0%Q.
Definition Uint32Array (n : nat) : list Z := replicate n 0%Z.

(** [target.set(source, offset)] on typed arrays; it throws a
    [RangeError] ([None]) when the source does not fit. *)
Definition set (target source : list Q) (offset : nat) : option (list Q) :=
  if offset + length source <=? length target then
    Some (take offset target ++ source ++ drop (offset + length source) target)
  else None.

(** Storing a number into a [Uint32Array] reduces it modulo 2^32. *)
Definition ToUint32 (v : Z) : Z := (v `mod` 2 ^ 32)%Z.

(** The first [forEach]: [(vertexCount, indexCount)]. *)
Definition count_step (acc : nat * nat) (g : BufferGeometry) : nat * nat :=
  let '(vertexCount, indexCount) := acc in
  let vertexCount := vertexCount + count (position g) in
  let indexCount :=
    match index g with
    | Some ix => indexCount + length ix
    | None => indexCount
    end in
  (vertexCount, indexCount).

(** The variables the second [forEach] updates. *)
Record Buffers := {
  positionArray : list Q;
  normalArray : list Q;
  uvArray : list Q;
  colorArray : list Q;
  indexArray : option (list Z);
  vOffset : nat;
  iOffset : nat
}.

(** The loop [for (let i = 0; i < g.index.count; i++)], at index [i]
    with [ix] the entries from [i] on. *)
Fixpoint write_indices (ix : Index) (i vOffset iOffset : nat)
  (indexArray : list Z) : list Z :=
  match ix with
  | [] => indexArray
  | xi :: rest =>
      write_indices rest (S i) vOffset iOffset
        (<[iOffset + i := ToUint32 (xi + Z.of_nat vOffset)]> indexArray)
  end.

Definition set_if (target : list Q) (a : option BufferAttribute) (offset : nat)
  : option (list Q) :=
  match a with
  | Some a => set target (array a) offset
  | None => Some target
  end.

(** The body of the second [forEach]. *)
Definition merge_step (b : Buffers) (g : BufferGeometry) : option Buffers :=
  let pos := position g in
  positionArray' ← set (positionArray b) (array pos) (vOffset b * 3);
  normalArray' ← set_if (normalArray b) (normal g) (vOffset b * 3);
  uvArray' ← set_if (uvArray b) (uv g) (vOffset b * 2);
  colorArray' ← set_if (colorArray b) (color g) (vOffset b * 3);
  let '(indexArray', iOffset') :=
    match index g, indexArray b with
    | Some ix, Some indexArray =>
        (Some (write_indices ix 0 (vOffset b) (iOffset b) indexArray),
         iOffset b + length ix)
    | _, _ => (indexArray b, iOffset b)
    end in
  Some {| positionArray := positionArray'; normalArray := normalArray';
          uvArray := uvArray'; colorArray := colorArray';
          indexArray := indexArray';
          vOffset := vOffset b + count pos; iOffset := iOffset' |}.

Fixpoint merge_loop (b : Buffers) (geometries : list BufferGeometry)
  : option Buffers :=
  match geometries with
  | [] => Some b
  | g :: rest => b' ← merge_step b g; merge_loop b' rest
  end.

(** const mergeBufferGeometries = (geometries: THREE.BufferGeometry[]) => ...
    [None] when a [set] throws. *)
Definition mergeBufferGeometries (geometries : list BufferGeometry)
  : option BufferGeometry :=
  let '(vertexCount, indexCount) := fold_left count_step geometries (0, 0) in
  let b := {| positionArray := Float32Array (vertexCount * 3);
              normalArray := Float32Array (vertexCount * 3);
              uvArray := Float32Array (vertexCount * 2);
              colorArray := Float32Array (vertexCount * 3);
              indexArray :=
                if 0 <? indexCount then Some (Uint32Array indexCount) else None;
              vOffset := 0; iOffset := 0 |} in
  b ← merge_loop b geometries;
  Some {| position := {| array := positionArray b; itemSize := 3 |};
          normal := Some {| array := normalArray b; itemSize := 3 |};
          uv := Some {| array := uvArray b; itemSize := 2 |};
          color := Some {| array := colorArray b; itemSize := 3 |};
          index := indexArray b |}.

(** What the index branch of the loop body leaves in [indexArray] and
    [iOffset]. *)
Definition index_step (b : Buffers) (g : BufferGeometry)
  : option (list Z) * nat :=
  match index g, indexArray b with
  | Some ix, Some indexArray =>
      (Some (write_indices ix 0 (vOffset b) (iOffset b) indexArray),
       iOffset b + length ix)
  | _, _ => (indexArray b, iOffset b)
  end.

(** *** What the merged buffers should hold *)

(** [n] floats of room filled with the attribute's array and then
    zeros; all zeros when the attribute is missing. *)
Definition padded (n : nat) (a : option BufferAttribute) : list Q :=
  match a with
  | Some a => array a ++ replicate (n - length (array a)) 0%Q
  | None => replicate n 0%Q
  end.

Definition vertex_total (geometries : list BufferGeometry) : nat :=
  sum_list (map (fun g => count (position g)) geometries).

Definition index_total (geometries : list BufferGeometry) : nat :=
  sum_list (map (fun g => match index g with
                          | Some ix => length ix
                          | None => 0
                          end) geometries).

(** The indices of the geometries, each shifted by the number of
    vertices before its geometry ([v] before the first) and stored as
    an unsigned 32-bit integer. *)
Fixpoint shifted_indices (v : nat) (geometries : list BufferGeometry)
  : list Z :=
  match geometries with
  | [] => []
  | g :: rest =>
      match index g with
      | Some ix => map (fun xi => ToUint32 (xi + Z.of_nat v)) ix
      | None => []
      end ++ shifted_indices (v + count (position g)) rest
  end.

Definition fits (room : nat) (a : option BufferAttribute) : Prop :=
  match a with
  | Some a => length (array a) <= room
  | None => True
  end.

(** A geometry as three.js builds it: positions of item size 3 that
    fill a whole number of vertices, and normals, uvs and colours that
    do not exceed the room of these vertices. *)
Definition well_formed (g : BufferGeometry) : Prop :=
  itemSize (position g) = 3
  /\ length (array (position g)) = 3 * count (position g)
  /\ fits (3 * count (position g)) (normal g)
  /\ fits (2 * count (position g)) (uv g)
  /\ fits (3 * count (position g)) (color g).

(** The indices of a geometry refer to its own vertices. *)
Definition index_in_range (g : BufferGeometry) : Prop :=
  match index g with
  | Some ix => Forall (fun xi => (0 <= xi < Z.of_nat (count (position g)))%Z) ix
  | None => True
  end.

(** The indices as they are without the 32-bit reduction. *)
Fixpoint plain_indices (v : nat) (geometries : list BufferGeometry)
  : list Z :=
  match geometries with
  | [] => []
  | g :: rest =>
      match index g with
      | Some ix => map (fun xi => (xi + Z.of_nat v)%Z) ix
      | None => []
      end ++ plain_indices (v + count (position g)) rest
  end.

End Geometry.

(** ** The photo card: the crop of an uploaded image *)

Module Polaroid.

Local Open Scope Q_scope.

(** The source rectangle [(sx, sy, sw, sh)] that
    [createPolaroidTexture] hands to [drawImage] for an image of the
    given width and height. *)
Definition crop (width height : Q) : Q * Q * Q * Q :=
  let aspect := width / height in
  let sw := width in
  let sh := height in
  let sx := 0 in
  let sy := 0 in
  if MediaPipe.lt_num 1 aspect then
    let sw := height in
    let sx := (width - height) / 2 in
    (sx, sy, sw, sh)
  else
    let sh := width in
    let sy := (height - width) / 2 in
    (sx, sy, sw, sh).

End Polaroid.

(** ** The film strip of [animate] *)

Module FilmStrip.

Local Open Scope Q_scope.

(** Where the "Layout Logic" of one frame sends an object: in front of
    the camera, to a place on the strip, off screen, or (ornaments)
    nowhere. *)
Inductive Placement :=
| Zoomed
| Strip (targetX : Q)
| Hidden
| Ornament.

(** [objects.filter(o => o.month === activeMonthRef.current && !o.isDeco)] *)
Definition monthPhotos (objects : list App.Obj.t) (month : Z) : list App.Obj.t :=
  List.filter (fun o => (App.Obj.month o =? month)%Z && negb (App.Obj.isDeco o))
              objects.

(** [filmX = -((monthPhotos.length - 1) * 1.5) / 2] *)
Definition filmX (objects : list App.Obj.t) (month : Z) : Q :=
  - ((inject_Z (Z.of_nat (length (monthPhotos objects month))) - 1) * (3 # 2))
  / 2.

(** The body of [objects.forEach] in film mode; the accumulator holds
    [currentFilmIndex] and the placements made so far. [scroll] is
    [Math.sin(time * 0.5) * Math.max(0, 5)]. *)
Definition place (month activePhotoId : Z) (filmX scroll : Q)
  (acc : nat * list (Z * Placement)) (p : App.Obj.t)
  : nat * list (Z * Placement) :=
  let '(currentFilmIndex, placed) := acc in
  let isActive := (activePhotoId =? App.Obj.id p)%Z in
  if App.Obj.isDeco p then (currentFilmIndex, placed ++ [(App.Obj.id p, Ornament)])
  else if isActive then (currentFilmIndex, placed ++ [(App.Obj.id p, Zoomed)])
  else if (App.Obj.month p =? month)%Z then
    let spacing := 3 # 2 in
    let xOffset := inject_Z (Z.of_nat currentFilmIndex) * spacing + filmX in
    (S currentFilmIndex, placed ++ [(App.Obj.id p, Strip (xOffset + scroll))])
  else (currentFilmIndex, placed ++ [(App.Obj.id p, Hidden)]).

Definition layout (objects : list App.Obj.t) (month activePhotoId : Z)
  (scroll : Q) : list (Z * Placement) :=
  let filmX := filmX objects month in
  snd (fold_left (place month activePhotoId filmX scroll) objects (0%nat, [])).

(** The ids and x coordinates of the objects on the strip, in object
    order. *)
Definition strip_of (placed : list (Z * Placement)) : list (Z * Q) :=
  omap (fun ip => match snd ip with
                  | Strip x => Some (fst ip, x)
                  | _ => None
                  end) placed.

(** The x coordinate of the [k]-th place on the strip. *)
Definition slot (objects : list App.Obj.t) (month : Z) (scroll : Q) (k : nat)
  : Q :=
  inject_Z (Z.of_nat k) * (3 # 2) + filmX objects month + scroll.

End FilmStrip.

(** ** The easing functions of the shaders *)

Module Shaders.

Local Open Scope R_scope.

(** float easeInOutQuint(float x), star vertex shader. *)
Definition easeInOutQuint (x : R) : R :=
  if Rlt_dec x (1 / 2) then 16 * x * x * x * x * x
  else 1 - (- 2 * x + 2) ^ 5 / 2.

(** float easeOutQuart(float x), ornament vertex shader. *)
Definition easeOutQuart (x : R) : R := 1 - (1 - x) ^ 4.

(** GLSL [mix(a, b, t)]. *)
Definition mix (a b t : R) : R := a * (1 - t) + b * t.

End Shaders.

(** ** The chaos positions *)

Module Scatter.

Local Open Scope R_scope.




End Scatter.

(* ===================================================================== *)
(** * Part II: properties                                                 *)
(* ===================================================================== *)

(** ** Finger counting *)

Section FingerCount.

Import MediaPipe.
Local Open Scope Z_scope.

Lemma countExtendedFingers_digits (h : Hand) :
  countExtendedFingers h =
  digit h 8 6 + digit h 12 10 + digit h 16 14 + digit h 20 18 + digit h 4 2.
Proof.
  unfold countExtendedFingers, digit.
  repeat match goal with |- context [lt_num ?a ?b] => destruct (lt_num a b) end;
    reflexivity.
Qed.

Lemma digit_range (h : Hand) (tip joint : nat) : 0 <= digit h tip joint <= 1.
Proof. unfold digit. destruct (lt_num _ _); simpl; lia. Qed.

Lemma countExtendedFingers_range (h : Hand) : 0 <= countExtendedFingers h <= 5.
Proof.
  rewrite countExtendedFingers_digits.
  pose proof (digit_range h 8 6). pose proof (digit_range h 12 10).
  pose proof (digit_range h 16 14). pose proof (digit_range h 20 18).
  pose proof (digit_range h 4 2). lia.
Qed.

(** C5. A hand's count is the number of digits whose fingertip y is
    below its lower joint's y (0..5, so 0..10 for the naive sum of two
    hands); one hand yields its own count; with two hands 1+1 yields
    11, 1+2 and 2+1 yield 12, and every other pair yields the sum. *)
Theorem C5_finger_count_mapping (h0 h1 : Hand) (more : list Hand) :
  let c1 := countExtendedFingers h0 in
  let c2 := countExtendedFingers h1 in
  c1 = digit h0 8 6 + digit h0 12 10 + digit h0 16 14 + digit h0 20 18
       + digit h0 4 2
  /\ 0 <= c1 <= 5 /\ 0 <= c1 + c2 <= 10
  /\ totalCount [] = None
  /\ totalCount [h0] = Some c1
  /\ (c1 = 1 /\ c2 = 1 -> totalCount (h0 :: h1 :: more) = Some 11)
  /\ ((c1 = 1 /\ c2 = 2) \/ (c1 = 2 /\ c2 = 1) ->
      totalCount (h0 :: h1 :: more) = Some 12)
  /\ (~ (c1 = 1 /\ c2 = 1) ->
      ~ ((c1 = 1 /\ c2 = 2) \/ (c1 = 2 /\ c2 = 1)) ->
      totalCount (h0 :: h1 :: more) = Some (c1 + c2)).
Proof.
  intros c1 c2.
  pose proof (countExtendedFingers_range h0) as R0.
  pose proof (countExtendedFingers_range h1) as R1.
  fold c1 in R0. fold c2 in R1.
  split; [apply countExtendedFingers_digits|].
  split; [exact R0|]. split; [lia|].
  split; [reflexivity|]. split; [reflexivity|].
  unfold totalCount. fold c1 c2.
  repeat split.
  - intros [-> ->]. reflexivity.
  - intros [[-> ->] | [-> ->]]; reflexivity.
  - intros N11 N12.
    destruct (Z.eqb_spec c1 1), (Z.eqb_spec c2 1), (Z.eqb_spec c2 2),
      (Z.eqb_spec c1 2); simpl; try reflexivity; exfalso; lia.
Qed.

(** The theorem at synthetic landmark sets: index finger only on both
    hands, and index only against index plus middle. *)
Lemma C5_finger_count_mapping_witness :
  totalCount [synthetic_hand true false false false false;
              synthetic_hand true false false false false] = Some 11
  /\ totalCount [synthetic_hand true true false false false;
                 synthetic_hand true false false false false] = Some 12
  /\ totalCount [synthetic_hand true true true true true;
                 synthetic_hand true true true true true] = Some 10.
Proof.
  split; [|split].
  - apply (C5_finger_count_mapping
             (synthetic_hand true false false false false)
             (synthetic_hand true false false false false) []).
    split; reflexivity.
  - apply (C5_finger_count_mapping
             (synthetic_hand true true false false false)
             (synthetic_hand true false false false false) []).
    right. split; reflexivity.
  - apply (C5_finger_count_mapping
             (synthetic_hand true true true true true)
             (synthetic_hand true true true true true) []).
    + vm_compute. intros [H _]. discriminate H.
    + vm_compute. intros [[H _] | [H _]]; discriminate H.
Defined.

End FingerCount.

(** ** The mode state machine *)

Section ModeState.

Import MediaPipe App.
Local Open Scope Z_scope.

Lemma month_eqb_eq (a b : option Z) : month_eqb a b = true <-> a = b.
Proof.
  destruct a as [m|], b as [n|]; simpl; split; intros H;
    try discriminate; try reflexivity.
  - apply Z.eqb_eq in H. congruence.
  - inversion H. lia.
Qed.

Lemma month_eqb_refl (a : option Z) : month_eqb a a = true.
Proof. apply month_eqb_eq. reflexivity. Qed.

Lemma month_eqb_None (a : option Z) : month_eqb a None = true <-> a = None.
Proof. apply month_eqb_eq. Qed.

(** Rendering a state whose refs are in sync changes nothing. *)
Lemma render_synced (s : State) : synced s -> render s = s.
Proof.
  destruct s; unfold synced, render; simpl. intros (-> & -> & -> & ->).
  rewrite month_eqb_refl. reflexivity.
Qed.

(** Rendering restores the invariant, provided the handler left the
    selection mirrors equal and, where it did not change the month,
    left the mode exclusive. *)
Lemma render_inv (h : State) :
  uiActiveId h = activePhotoId h ->
  (activeMonth h = activeMonthRef h -> exclusive h) ->
  synced (render h) /\ exclusive (render h).
Proof.
  destruct h; unfold synced, exclusive, render; simpl. intros -> Hex.
  destruct (month_eqb activeMonth0 activeMonthRef0) eqn:E; simpl.
  - apply month_eqb_eq in E. auto.
  - destruct activeMonth0; simpl; auto 10.
    repeat split; congruence.
Qed.

(** What the gesture block may do to the mode. *)
Lemma monthSelection_effect now results s :
  let s' := monthSelection now results s in
  isFormed s' = isFormed s /\ isFormedRef s' = isFormedRef s
  /\ activeMonthRef s' = activeMonthRef s
  /\ cameraActive s' = cameraActive s /\ cameraActiveRef s' = cameraActiveRef s
  /\ uiActiveId s' = uiActiveId s /\ activePhotoId s' = activePhotoId s
  /\ lastStateChangeTime s' = lastStateChangeTime s
  /\ lastVideoTimeRef s' = lastVideoTimeRef s
  /\ (activeMonth s' = activeMonth s
      \/ isFormedRef s = false /\ exists c, activeMonth s' = Some c).
Proof.
  unfold monthSelection.
  destruct (isFormedRef s) eqn:F; simpl; [auto 20|].
  destruct (totalCount (landmarks results)) as [c|]; [|auto 20].
  destruct (_ >? _); [|auto 20].
  destruct (_ && _); [|auto 20].
  destruct (month_eqb _ _); simpl; [auto 20|].
  repeat split; eauto.
Qed.

Lemma fistOrPalm_effect now name s :
  let s' := fistOrPalm now name s in
  isFormedRef s' = isFormedRef s /\ activeMonthRef s' = activeMonthRef s
  /\ cameraActive s' = cameraActive s /\ cameraActiveRef s' = cameraActiveRef s
  /\ uiActiveId s' = uiActiveId s /\ activePhotoId s' = activePhotoId s
  /\ lastVideoTimeRef s' = lastVideoTimeRef s
  /\ (isFormed s' = isFormed s /\ activeMonth s' = activeMonth s
      \/ isFormed s' = true /\ activeMonth s' = None
      \/ isFormedRef s = true /\ isFormed s' = false
         /\ activeMonth s' = activeMonth s).
Proof.
  unfold fistOrPalm.
  destruct (String.eqb name "Closed_Fist").
  - destruct (_ || _); simpl; auto 20.
  - destruct (String.eqb name "Open_Palm"); [|simpl; auto 20].
    destruct (isFormedRef s) eqn:F; simpl; auto 20.
Qed.

Lemma gestureLogic_effect ready now results s :
  let s' := gestureLogic ready now results s in
  isFormedRef s' = isFormedRef s /\ activeMonthRef s' = activeMonthRef s
  /\ cameraActive s' = cameraActive s /\ cameraActiveRef s' = cameraActiveRef s
  /\ uiActiveId s' = uiActiveId s /\ activePhotoId s' = activePhotoId s
  /\ (isFormed s' = isFormed s
      /\ (activeMonth s' = activeMonth s
          \/ isFormedRef s = false /\ exists c, activeMonth s' = Some c)
      \/ isFormed s' = true /\ activeMonth s' = None
      \/ isFormedRef s = true /\ isFormed s' = false
         /\ activeMonth s' = activeMonth s).
Proof.
  unfold gestureLogic.
  destruct (cameraActiveRef s && ready); [|simpl; auto 20].
  destruct (negb _); [|simpl; auto 20].
  destruct (gestures results) as [|[top others] rest]; [simpl; auto 20|].
  set (s1 := setGestureStatus (categoryName top)
               (set_lastVideoTimeRef (nowInMs now) s)).
  pose proof (monthSelection_effect now results s1) as M.
  set (s2 := monthSelection now results s1) in *.
  pose proof (fistOrPalm_effect now (categoryName top) s2) as P.
  set (s3 := fistOrPalm now (categoryName top) s2) in *.
  assert (parallax results s3 = s3 \/
          exists v, parallax results s3 = set_handPos v s3) as [-> | [v ->]].
  { unfold parallax. destruct (landmarks results); eauto. }
  - simpl in M, P. destruct M as (M1 & M2 & M3 & M4 & M5 & M6 & M7 & M8 & M9 & M10).
    destruct P as (P1 & P2 & P3 & P4 & P5 & P6 & P7 & P8).
    change (isFormedRef s1) with (isFormedRef s) in *.
    change (isFormed s1) with (isFormed s) in *.
    change (activeMonth s1) with (activeMonth s) in *.
    change (activeMonthRef s1) with (activeMonthRef s) in *.
    change (cameraActive s1) with (cameraActive s) in *.
    change (cameraActiveRef s1) with (cameraActiveRef s) in *.
    change (uiActiveId s1) with (uiActiveId s) in *.
    change (activePhotoId s1) with (activePhotoId s) in *.
    repeat split; try congruence.
    destruct P8 as [[Pa Pb] | [[Pa Pb] | (Pa & Pb & Pc)]].
    + left. split; [congruence|].
      destruct M10 as [Ma | [Ma [c Mc]]]; [left; congruence|].
      right. split; [assumption|]. exists c. congruence.
    + right. left. auto.
    + right. right. rewrite M2 in Pa.
      destruct M10 as [Ma | [Ma _]]; [|congruence].
      repeat split; congruence.
  - simpl in M, P. destruct M as (M1 & M2 & M3 & M4 & M5 & M6 & M7 & M8 & M9 & M10).
    destruct P as (P1 & P2 & P3 & P4 & P5 & P6 & P7 & P8).
    change (isFormedRef s1) with (isFormedRef s) in *.
    change (isFormed s1) with (isFormed s) in *.
    change (activeMonth s1) with (activeMonth s) in *.
    change (activeMonthRef s1) with (activeMonthRef s) in *.
    change (cameraActive s1) with (cameraActive s) in *.
    change (cameraActiveRef s1) with (cameraActiveRef s) in *.
    change (uiActiveId s1) with (uiActiveId s) in *.
    change (activePhotoId s1) with (activePhotoId s) in *.
    simpl.
    repeat split; try congruence.
    destruct P8 as [[Pa Pb] | [[Pa Pb] | (Pa & Pb & Pc)]].
    + left. split; [congruence|].
      destruct M10 as [Ma | [Ma [c Mc]]]; [left; congruence|].
      right. split; [assumption|]. exists c. congruence.
    + right. left. auto.
    + right. right. rewrite M2 in Pa.
      destruct M10 as [Ma | [Ma _]]; [|congruence].
      repeat split; congruence.
Qed.

(** [handleRaycast] changes nothing but the selection, and nothing at
    all in film mode. *)
Lemma handleRaycast_effect objects tap s :
  let s' := handleRaycast objects tap s in
  (activeMonthRef s <> None -> s' = s)
  /\ isFormed s' = isFormed s /\ activeMonth s' = activeMonth s
  /\ activeMonthRef s' = activeMonthRef s
  /\ (uiActiveId s = activePhotoId s -> uiActiveId s' = activePhotoId s').
Proof.
  unfold handleRaycast.
  destruct (activeMonthRef s) eqn:E; [simpl; auto 10|].
  split; [congruence|].
  match goal with |- context [negb ?c] => destruct (negb c) end;
    simpl; auto 10.
Qed.

Lemma upload_fold_effect completions b s :
  let s' := snd (fold_left (fun bs c => reader_onload (fst c) (snd c) bs)
                           completions (b, s)) in
  isFormed s' = isFormed s /\ activeMonth s' = activeMonth s
  /\ activeMonthRef s' = activeMonthRef s
  /\ uiActiveId s' = uiActiveId s /\ activePhotoId s' = activePhotoId s.
Proof.
  revert b s. induction completions as [|[i r] cs IH]; intros b s; simpl.
  - auto 10.
  - unfold reader_onload at 2. simpl.
    destruct (files b !! i) as [file|]; [|apply IH].
    destruct (decodable file); [|apply IH].
    unfold img_onload.
    match goal with |- context [Nat.eqb ?a ?c] => destruct (Nat.eqb a c) end.
    + match goal with |- context [fold_left _ cs (?b', ?s')] =>
        destruct (IH b' s') as (I1 & I2 & I3 & I4 & I5) end.
      simpl in *. auto 10.
    + apply IH.
Qed.

(** Every handler keeps the selection mirrors equal and, where it does
    not change the month, keeps the mode exclusive. *)
Lemma handle_keeps (e : Event) (s : State) :
  synced s -> exclusive s ->
  let h := handle e s in
  uiActiveId h = activePhotoId h
  /\ (activeMonth h = activeMonthRef h -> exclusive h).
Proof.
  intros (S1 & S2 & S3 & S4) Ex. unfold exclusive in *.
  destruct e as [ready now results|tap| | | |loaded granted|selected completions];
    simpl.
  - destruct (gestureLogic_effect ready now results s)
      as (G1 & G2 & G3 & G4 & G5 & G6 & G7).
    split; [congruence|]. intros Hm Hne. rewrite G6.
    destruct G7 as [[Ga [Gb | [Gb [c Gc]]]] | [[Ga Gb] | (Ga & Gb & Gc)]].
    + rewrite Ga. apply Ex. congruence.
    + rewrite Ga. split; [congruence|]. apply Ex. congruence.
    + congruence.
    + split; [assumption|]. apply Ex. congruence.
  - destruct (handleRaycast_effect (build_objects (userTextures s)) tap s)
      as (R1 & R2 & R3 & R4 & R5).
    split; [auto|]. intros Hm Hne.
    rewrite R1; [apply Ex|]; congruence.
  - unfold handleNext. destruct (activePhotoId s =? -1) eqn:E; simpl; auto.
    split; [reflexivity|]. intros _ Hne. apply Ex in Hne. lia.
  - unfold handlePrev. destruct (activePhotoId s =? -1) eqn:E; simpl; auto.
    split; [reflexivity|]. intros _ Hne. apply Ex in Hne. lia.
  - simpl. split; [reflexivity|]. intros _ Hne. split; [apply Ex|]; auto.
  - unfold enableCam. destruct (negb loaded); [auto|].
    destruct (cameraActive s); simpl; [split; [auto|congruence]|].
    destruct granted; simpl; auto.
  - unfold handleUpload. destruct (Nat.ltb 0 (length selected)); [|auto].
    match goal with |- context [fold_left _ completions (?b, s)] =>
      destruct (upload_fold_effect completions b s) as (U1 & U2 & U3 & U4 & U5)
    end.
    split; [congruence|]. intros Hm Hne. rewrite U1, U5. apply Ex. congruence.
Qed.

Lemma step_inv (s : State) (e : Event) :
  synced s /\ exclusive s -> synced (step s e) /\ exclusive (step s e).
Proof.
  intros [Sy Ex]. destruct (handle_keeps e s Sy Ex) as [H1 H2].
  apply render_inv; assumption.
Qed.

Lemma initial_inv : synced initial /\ exclusive initial.
Proof. unfold synced, exclusive. simpl. auto 10. Qed.

Lemma fold_step_inv (es : list Event) (s : State) :
  synced s /\ exclusive s ->
  synced (fold_left step es s) /\ exclusive (fold_left step es s).
Proof.
  revert s. induction es as [|e es IH]; intros s I; simpl; [exact I|].
  apply IH, step_inv, I.
Qed.

(** The invariant of every run. *)
Lemma run_inv (es : list Event) : synced (run es) /\ exclusive (run es).
Proof. apply fold_step_inv, initial_inv. Qed.

Lemma render_effect (h : State) :
  activeMonth (render h) = activeMonth h
  /\ lastStateChangeTime (render h) = lastStateChangeTime h
  /\ (activeMonth h = None -> isFormed (render h) = isFormed h).
Proof.
  destruct h; unfold render; simpl.
  destruct (month_eqb activeMonth0 activeMonthRef0); simpl; auto.
  destruct activeMonth0; simpl; auto. repeat split. discriminate.
Qed.

Lemma parallax_effect results s :
  let s' := parallax results s in
  isFormed s' = isFormed s /\ activeMonth s' = activeMonth s
  /\ lastStateChangeTime s' = lastStateChangeTime s.
Proof. unfold parallax. destruct (landmarks results); simpl; auto. Qed.

(** A processed frame: the camera is on, recognizer and video are
    ready, the timestamp is new and a gesture was classified. *)
Lemma gestureLogic_processed now results top others more s :
  cameraActiveRef s = true ->
  nowInMs now <> lastVideoTimeRef s ->
  gestures results = (top, others) :: more ->
  gestureLogic true now results s =
  parallax results
    (fistOrPalm now (categoryName top)
       (monthSelection now results
          (setGestureStatus (categoryName top)
             (set_lastVideoTimeRef (nowInMs now) s)))).
Proof.
  intros Hc Ht Hg. unfold gestureLogic. rewrite Hc, Hg. simpl.
  destruct (Z.eqb_spec (nowInMs now) (lastVideoTimeRef s)); [contradiction|].
  reflexivity.
Qed.

(** C6. On a processed frame whose top label is the closed fist, in a
    session that is not formed or has a category active, the handler
    sets formed, clears the category and stamps the transition time;
    the state after the following render is formed with no category. *)
Theorem C6_closed_fist_forms (es : list Event) (now : Clock)
  (results : GestureRecognizerResult) (top : Category)
  (others : list Category) (more : list (Category * list Category)) :
  let s := run es in
  cameraActive s = true ->
  nowInMs now <> lastVideoTimeRef s ->
  gestures results = (top, others) :: more ->
  categoryName top = "Closed_Fist"%string ->
  isFormed s = false \/ activeMonth s <> None ->
  let h := gestureLogic true now results s in
  let s' := step s (Frame true now results) in
  (isFormed h = true /\ activeMonth h = None
   /\ lastStateChangeTime h = nowStamp now)
  /\ (isFormed s' = true /\ activeMonth s' = None
      /\ lastStateChangeTime s' = nowStamp now).
Proof.
  intros s Hc Ht Hg Hn Hmode h s'.
  destruct (run_inv es) as [(S1 & S2 & S3 & S4) _]. fold s in S1, S2, S3, S4.
  assert (Hh : isFormed h = true /\ activeMonth h = None
               /\ lastStateChangeTime h = nowStamp now).
  { unfold h. rewrite (gestureLogic_processed now results top others more s);
      [|congruence|assumption|assumption].
    set (s1 := setGestureStatus _ _).
    destruct (monthSelection_effect now results s1)
      as (_ & M2 & M3 & _). simpl in M2, M3.
    set (s2 := monthSelection now results s1) in *.
    destruct (parallax_effect results (fistOrPalm now (categoryName top) s2))
      as (-> & -> & ->).
    unfold fistOrPalm. rewrite Hn. simpl String.eqb. cbv iota.
    rewrite M2, M3, S1, S2.
    assert (negb (isFormed s) || negb (month_eqb (activeMonth s) None) = true)
      as ->.
    { destruct Hmode as [-> | Hm]; [reflexivity|].
      destruct (month_eqb (activeMonth s) None) eqn:E;
        [apply month_eqb_None in E; contradiction|].
      apply orb_true_r. }
    simpl. auto. }
  split; [exact Hh|]. destruct Hh as (H1 & H2 & H3).
  unfold s', step. simpl handle. fold h.
  destruct (render_effect h) as (R1 & R2 & R3).
  rewrite R1, R2, (R3 H2). auto.
Qed.

(** The theorem on the first fist frame of a session. *)
Lemma C6_closed_fist_forms_witness :
  let f := frame 3000 "Closed_Fist"
             [synthetic_hand false false false false false] in
  isFormed (run [CamButton true true; f]) = true
  /\ activeMonth (run [CamButton true true; f]) = None
  /\ lastStateChangeTime (run [CamButton true true; f]) = 3000.
Proof.
  intros f.
  apply (C6_closed_fist_forms [CamButton true true] (at_ms 3000)
           {| gestures := [({| categoryName := "Closed_Fist" |}, [])];
              landmarks := [synthetic_hand false false false false false] |}
           {| categoryName := "Closed_Fist" |} [] []).
  - reflexivity.
  - vm_compute. discriminate.
  - reflexivity.
  - reflexivity.
  - left. reflexivity.
Defined.

(** C7. In every state a run of handlers reaches, an active category
    excludes the formed state and any selection; and the render that
    follows a change of the category to a month leaves the session
    scattered with the selection cleared. *)
Theorem C7_mode_exclusivity (es : list Event) (h : State) :
  (activeMonth (run es) <> None ->
   isFormed (run es) = false /\ activePhotoId (run es) = -1
   /\ uiActiveId (run es) = -1)
  /\ (activeMonth h <> None -> activeMonth h <> activeMonthRef h ->
      isFormed (render h) = false /\ activePhotoId (render h) = -1
      /\ uiActiveId (render h) = -1).
Proof.
  split.
  - intros Hm. destruct (run_inv es) as [(S1 & S2 & S3 & S4) Ex].
    destruct (Ex Hm) as [E1 E2]. repeat split; congruence.
  - intros Hm Hch. destruct h; unfold render; simpl in *.
    destruct (month_eqb activeMonth0 activeMonthRef0) eqn:E.
    + apply month_eqb_eq in E. contradiction.
    + destruct activeMonth0; [simpl; auto | contradiction].
Qed.

(** The theorem after a frame that shows 1 + 2 fingers: month 12. *)
Lemma C7_mode_exclusivity_witness :
  let es := [CamButton true true;
             frame 3000 "None" [synthetic_hand true false false false false;
                                synthetic_hand true true false false false]] in
  activeMonth (run es) = Some 12
  /\ isFormed (run es) = false /\ activePhotoId (run es) = -1
  /\ uiActiveId (run es) = -1.
Proof.
  intros es. split; [reflexivity|].
  apply (proj1 (C7_mode_exclusivity es initial)).
  vm_compute. intros H. discriminate H.
Defined.

(** C9. While a category is active, a tap that reaches [handleRaycast]
    changes nothing: neither the selection nor any other state, and the
    render that follows is the identity. *)
Theorem C9_film_mode_tap_suppressed (es : list Event) (objects : list Obj.t)
  (tap : Tap) :
  activeMonth (run es) <> None ->
  handleRaycast objects tap (run es) = run es
  /\ step (run es) (Click tap) = run es.
Proof.
  intros Hm. destruct (run_inv es) as [Sy _].
  assert (Href : activeMonthRef (run es) <> None).
  { destruct Sy as (_ & -> & _). exact Hm. }
  split.
  - apply handleRaycast_effect, Href.
  - unfold step. simpl handle.
    rewrite (proj1 (handleRaycast_effect _ tap (run es)) Href).
    apply render_synced, Sy.
Qed.

(** The theorem in month 3, for a tap right on photo 0 on a phone. *)
Lemma C9_film_mode_tap_suppressed_witness :
  let es := [CamButton true true;
             frame 3000 "None" [synthetic_hand true true true false false]] in
  let tap := {| hit := Some 0%nat; innerWidth := 390;
                distanceTo := fun _ => 0%Q; random := 0%Q |} in
  activeMonth (run es) = Some 3
  /\ handleRaycast (build_objects []) tap (run es) = run es
  /\ step (run es) (Click tap) = run es.
Proof.
  intros es tap. split; [reflexivity|].
  apply (C9_film_mode_tap_suppressed es (build_objects []) tap).
  vm_compute. intros H. discriminate H.
Defined.

(** A qualifying finger count (1..12, other than the rendered month)
    seen while scattered applies whenever the cooldown since the last
    fist or palm transition has run out, and does not restart the
    cooldown. *)
Lemma month_signal_applies (s : State) (now : Clock)
  (results : GestureRecognizerResult) (top : Category)
  (others : list Category) (more : list (Category * list Category)) (c : Z) :
  synced s ->
  cameraActive s = true ->
  nowInMs now <> lastVideoTimeRef s ->
  gestures results = (top, others) :: more ->
  categoryName top <> "Closed_Fist"%string ->
  isFormed s = false ->
  totalCount (landmarks results) = Some c ->
  1 <= c <= 12 -> activeMonth s <> Some c ->
  nowGate now - lastStateChangeTime s > 2000 ->
  activeMonth (step s (Frame true now results)) = Some c
  /\ lastStateChangeTime (step s (Frame true now results))
     = lastStateChangeTime s.
Proof.
  intros (S1 & S2 & S3 & S4) Hc Ht Hg Hn Hf Hcount Hr Hm Hgate.
  unfold step. simpl handle.
  destruct (render_effect (gestureLogic true now results s)) as (-> & -> & _).
  rewrite (gestureLogic_processed now results top others more s);
    [|congruence|assumption|assumption].
  set (s1 := setGestureStatus _ _).
  assert (M : monthSelection now results s1 =
              setGestureStatus ("Month: " +:+ pretty c)
                (setActiveMonth (Some c) s1)).
  { unfold monthSelection. simpl isFormedRef. rewrite S1, Hf, Hcount. simpl.
    destruct (Z.gtb_spec (nowGate now - lastStateChangeTime s) 2000); [|lia].
    destruct (Z.geb_spec c 1); [|lia]. destruct (Z.leb_spec c 12); [|lia].
    simpl. rewrite S2.
    destruct (month_eqb (activeMonth s) (Some c)) eqn:E;
      [apply month_eqb_eq in E; contradiction|].
    reflexivity. }
  rewrite M.
  destruct (parallax_effect results
              (fistOrPalm now (categoryName top)
                 (setGestureStatus ("Month: " +:+ pretty c)
                    (setActiveMonth (Some c) s1)))) as (_ & -> & ->).
  unfold fistOrPalm.
  destruct (String.eqb_spec (categoryName top) "Closed_Fist"); [contradiction|].
  destruct (String.eqb (categoryName top) "Open_Palm"); [|simpl; auto].
  simpl isFormedRef. rewrite S1, Hf. simpl. auto.
Qed.

(** C1 (the code at the failing input). After the camera is switched
    on, a frame at 3000 ms showing three fingers and a frame 16 ms later
    showing five fingers both change the category: the first transition
    leaves [lastStateChangeTime] at 0, so the second is not held back. *)
Theorem C1_signals_within_cooldown_both_apply :
  let three := synthetic_hand true true true false false in
  let five := synthetic_hand true true true true true in
  let s1 := step camera_on (frame 3000 "None" [three]) in
  let s2 := step s1 (frame 3016 "None" [five]) in
  activeMonth camera_on = None
  /\ activeMonth s1 = Some 3 /\ lastStateChangeTime s1 = 0
  /\ activeMonth s2 = Some 5 /\ lastStateChangeTime s2 = 0.
Proof. vm_compute. auto. Qed.

End ModeState.

(** ** Tap selection *)

Section Selection.

Import MediaPipe App.
Local Open Scope Z_scope.

Lemma lt_num_true (a b : Q) : lt_num a b = true <-> (a < b)%Q.
Proof.
  unfold lt_num. destruct (Qlt_le_dec a b) as [H|H]; split; intros H';
    try reflexivity; try assumption; try discriminate.
  exfalso. apply (Qlt_not_le _ _ H'), H.
Qed.

Lemma lt_num_false (a b : Q) : lt_num a b = false <-> (b <= a)%Q.
Proof.
  unfold lt_num. destruct (Qlt_le_dec a b) as [H|H]; split; intros H';
    try reflexivity; try assumption; try discriminate.
  exfalso. apply (Qlt_not_le _ _ H), H'.
Qed.

(** The magnetism loop keeps the smallest distance seen so far below
    the starting threshold, and the id of the first photo at that
    distance. *)
Lemma magnet_fold (tap : Tap) (objects : list Obj.t) (cd0 : Q) (t0 : Z) :
  let r := fold_left (magnet_step tap) objects (cd0, t0) in
  (forall q, In q objects -> Obj.isDeco q = false ->
             (fst r <= distanceTo tap (Obj.mesh q))%Q)
  /\ (fst r <= cd0)%Q
  /\ (r = (cd0, t0)
      \/ exists p, In p objects /\ Obj.isDeco p = false
                   /\ r = (distanceTo tap (Obj.mesh p), Obj.id p)
                   /\ (distanceTo tap (Obj.mesh p) < cd0)%Q).
Proof.
  revert cd0 t0. induction objects as [|o rest IH]; intros cd0 t0; simpl.
  - split; [intros q []|]. split; [apply Qle_refl|]. left. reflexivity.
  - unfold magnet_step at 2.
    destruct (Obj.isDeco o) eqn:D; simpl.
    + destruct (IH cd0 t0) as (A & B & C). split; [|split].
      * intros q [<- | Hq] Hd; [congruence | auto].
      * exact B.
      * destruct C as [C | (p & Hp & Hd & Hr & Hlt)]; [left; exact C|].
        right. exists p. auto.
    + destruct (lt_num (distanceTo tap (Obj.mesh o)) cd0) eqn:L.
      * apply lt_num_true in L.
        destruct (IH (distanceTo tap (Obj.mesh o)) (Obj.id o)) as (A & B & C).
        split; [|split].
        -- intros q [<- | Hq] Hd; [exact B | auto].
        -- apply Qle_trans with (1 := B). apply Qlt_le_weak, L.
        -- right. destruct C as [C | (p & Hp & Hd & Hr & Hlt)].
           ++ exists o. auto.
           ++ exists p. repeat split; auto.
              apply Qlt_trans with (1 := Hlt), L.
      * apply lt_num_false in L.
        destruct (IH cd0 t0) as (A & B & C). split; [|split].
        -- intros q [<- | Hq] Hd; [|auto].
           apply Qle_trans with (1 := B), L.
        -- exact B.
        -- destruct C as [C | (p & Hp & Hd & Hr & Hlt)]; [left; exact C|].
           right. exists p. auto.
Qed.

(** The objects of the scene carry their index as id, and the photos
    are the first [PHOTO_COUNT] of them. *)
Lemma build_objects_id (ut : list Item.t) (p : Obj.t) :
  In p (build_objects ut) ->
  0 <= Obj.id p < TOTAL_ITEMS
  /\ (Obj.isDeco p = false <-> Obj.id p < PHOTO_COUNT).
Proof.
  unfold build_objects, make_object, TOTAL_ITEMS, PHOTO_COUNT, DECO_COUNT.
  rewrite in_map_iff. intros (i & <- & Hi).
  apply in_seq in Hi. simpl in *. split; [lia|].
  destruct (Z.ltb_spec (Z.of_nat i) 150); simpl; split; intros; try lia;
    congruence.
Qed.

Lemma Qfloor_eq_iff (q : Q) (k : Z) :
  Qfloor q = k <-> (inject_Z k <= q < inject_Z k + 1)%Q.
Proof.
  split.
  - intros <-. split; [apply Qfloor_le|].
    pose proof (Qlt_floor q) as H. rewrite inject_Z_plus in H. exact H.
  - intros [Hlo Hhi].
    assert (k <= Qfloor q).
    { rewrite <- (Qfloor_Z k). apply Qfloor_resp_le, Hlo. }
    assert (Qfloor q < k + 1).
    { rewrite Zlt_Qlt. rewrite inject_Z_plus.
      apply Qle_lt_trans with (2 := Hhi), Qfloor_le. }
    lia.
Qed.

End Selection.

(** ** Tap selection: the resolver *)

Section Resolver.

Import MediaPipe App.
Local Open Scope Z_scope.

(** X1. Outside film mode, on a viewport narrower than 768 px, a tap
    without a qualifying direct hit selects a closest photo among those
    projecting nearer than 0.15 to it; if there is none and nothing is
    selected it selects photo [floor(random * 150)], which lies in
    [0, PHOTO_COUNT) and is [k] exactly for [random] in
    [k/150, (k+1)/150); if there is none and a photo is selected, the
    state is unchanged. *)
Theorem handleRaycast_magnetism (es : list Event) (tap : Tap) :
  let s := run es in
  let objects := build_objects (userTextures s) in
  let s' := handleRaycast objects tap s in
  let dist p := distanceTo tap (Obj.mesh p) in
  let near p := Obj.isDeco p = false /\ (dist p < 15 # 100)%Q in
  activeMonth s = None ->
  directHit objects tap = -1 ->
  innerWidth tap < 768 ->
  (0 <= random tap < 1)%Q ->
  ((exists p, In p objects /\ near p) ->
   exists p, In p objects /\ near p
     /\ (forall q, In q objects -> Obj.isDeco q = false -> (dist p <= dist q)%Q)
     /\ activePhotoId s' = Obj.id p /\ uiActiveId s' = Obj.id p)
  /\ ((forall p, In p objects -> ~ near p) -> activePhotoId s = -1 ->
      0 <= activePhotoId s' < PHOTO_COUNT
      /\ uiActiveId s' = activePhotoId s'
      /\ forall k, activePhotoId s' = k <->
           (inject_Z k * (1 # 150) <= random tap
            < (inject_Z k + 1) * (1 # 150))%Q)
  /\ ((forall p, In p objects -> ~ near p) -> activePhotoId s <> -1 ->
      s' = s).
Proof.
  intros s objects s' dist near Hm Hhit Hw Hr.
  destruct (run_inv es) as [(_ & S2 & _) _]. fold s in S2.
  assert (Hs' : s' =
    let targetId := magnetism objects tap (-1) in
    let targetId :=
      if (targetId =? -1) && (activePhotoId s =? -1) then
        Qfloor (random tap * inject_Z PHOTO_COUNT)
      else targetId in
    if negb (targetId =? -1) then setActivePhoto targetId s else s).
  { unfold s', handleRaycast. rewrite S2, Hm, Hhit.
    destruct (Z.ltb_spec (innerWidth tap) 768); [reflexivity | lia]. }
  unfold magnetism in Hs'.
  destruct (magnet_fold tap objects (15 # 100) (-1)) as (A & B & C).
  set (r := fold_left (magnet_step tap) objects (15 # 100, -1)) in *.
  assert (Hfloor : 0 <= Qfloor (random tap * inject_Z PHOTO_COUNT) < PHOTO_COUNT).
  { unfold PHOTO_COUNT. split.
    - change 0 with (Qfloor 0). apply Qfloor_resp_le.
      change (inject_Z 150) with (150 # 1)%Q. lra.
    - rewrite Zlt_Qlt. eapply Qle_lt_trans; [apply Qfloor_le|].
      change (inject_Z 150) with (150 # 1)%Q. lra. }
  set (fl := Qfloor (random tap * inject_Z PHOTO_COUNT)) in *.
  split; [|split].
  - intros (p0 & Hp0 & Hd0 & Hn0).
    destruct C as [C | (p & Hp & Hd & Hrp & Hlt)].
    + exfalso. rewrite C in A. simpl in A.
      apply (Qlt_not_le _ _ Hn0). apply A; assumption.
    + exists p. rewrite Hrp in A, Hs'. simpl in A, Hs'.
      destruct (build_objects_id _ p Hp) as [Hid _].
      destruct (Z.eqb_spec (Obj.id p) (-1)); [lia|]. simpl in Hs'.
      destruct (Z.eqb_spec (Obj.id p) (-1)); [lia|]. simpl in Hs'.
      rewrite Hs'. unfold near. simpl. auto 10.
  - intros Hnone Hsel.
    destruct C as [C | (p & Hp & Hd & Hrp & Hlt)];
      [|exfalso; apply (Hnone p Hp); split; assumption].
    rewrite C in Hs'. simpl in Hs'. rewrite Hsel in Hs'. simpl in Hs'.
    destruct (Z.eqb_spec fl (-1)); [lia|]. simpl in Hs'. rewrite Hs'. simpl.
    split; [exact Hfloor|]. split; [reflexivity|].
    intros k. unfold fl. rewrite Qfloor_eq_iff. unfold PHOTO_COUNT.
    change (inject_Z 150) with (150 # 1)%Q.
    split; intros [H1 H2]; split; lra.
  - intros Hnone Hsel.
    destruct C as [C | (p & Hp & Hd & Hrp & Hlt)];
      [|exfalso; apply (Hnone p Hp); split; assumption].
    rewrite C in Hs'. simpl in Hs'.
    destruct (Z.eqb_spec (activePhotoId s) (-1)); [contradiction|].
    simpl in Hs'. exact Hs'.
Qed.

(** The theorem on a phone, every photo projecting 1/2 away from the
    tap: with [random = 1/2] photo 75 is selected. *)
Lemma handleRaycast_magnetism_witness :
  let tap := {| hit := None; innerWidth := 390;
                distanceTo := fun _ => (1 # 2)%Q; random := (1 # 2)%Q |} in
  activePhotoId (handleRaycast (build_objects []) tap initial) = 75.
Proof.
  intros tap.
  destruct (handleRaycast_magnetism [] tap) as (_ & H & _).
  - reflexivity.
  - reflexivity.
  - reflexivity.
  - split; [discriminate | reflexivity].
  - destruct H as (_ & _ & H).
    + intros p _ [_ Hn]. discriminate Hn.
    + reflexivity.
    + apply H. split; [discriminate | reflexivity].
Defined.

Lemma find_mesh_seq (ut : list Item.t) (m a n : nat) :
  (a <= m < a + n)%nat ->
  find (fun p => Nat.eqb (Obj.mesh p) m) (map (make_object ut) (seq a n))
  = Some (make_object ut m).
Proof.
  revert a. induction n as [|n IH]; intros a Hm; [lia|]. simpl.
  destruct (Nat.eqb_spec a m) as [-> | Hne]; [reflexivity|].
  apply IH. lia.
Qed.

Lemma find_mesh_none (ut : list Item.t) (m a n : nat) :
  (a + n <= m)%nat ->
  find (fun p => Nat.eqb (Obj.mesh p) m) (map (make_object ut) (seq a n))
  = None.
Proof.
  revert a. induction n as [|n IH]; intros a Hm; [reflexivity|]. simpl.
  destruct (Nat.eqb_spec a m) as [-> | Hne]; [lia|].
  apply IH. lia.
Qed.

(** The direct hit is the id of the nearest intersected mesh when that
    mesh is one of the first [PHOTO_COUNT], and -1 otherwise. *)
Lemma directHit_build (ut : list Item.t) (tap : Tap) :
  directHit (build_objects ut) tap =
  match hit tap with
  | Some m => if (m <? 150)%nat then Z.of_nat m else -1
  | None => -1
  end.
Proof.
  unfold directHit, build_objects. destruct (hit tap) as [m|]; [|reflexivity].
  change (Z.to_nat TOTAL_ITEMS) with 400%nat.
  destruct (Nat.ltb_spec m 150) as [Hlt | Hge].
  - rewrite (find_mesh_seq ut m 0 400) by lia.
    unfold make_object, PHOTO_COUNT. simpl.
    destruct (Z.ltb_spec (Z.of_nat m) 150); [reflexivity | lia].
  - destruct (Nat.lt_ge_cases m 400) as [Hlt | Hge'].
    + rewrite (find_mesh_seq ut m 0 400) by lia.
      unfold make_object, PHOTO_COUNT. simpl.
      destruct (Z.ltb_spec (Z.of_nat m) 150); [lia | reflexivity].
    + rewrite (find_mesh_none ut m 0 400) by lia. reflexivity.
Qed.

(** X2. Outside film mode, a tap whose nearest ray intersection is the
    mesh of photo [m] selects photo [m], whatever the viewport width,
    the distances and the previous selection; tapping it again changes
    nothing more. *)
Theorem handleRaycast_direct_photo (es : list Event) (tap : Tap) (m : nat) :
  let s := run es in
  let objects := build_objects (userTextures s) in
  let s' := handleRaycast objects tap s in
  activeMonth s = None ->
  hit tap = Some m -> (m < 150)%nat ->
  s' = setActivePhoto (Z.of_nat m) s
  /\ activePhotoId s' = Z.of_nat m /\ uiActiveId s' = Z.of_nat m
  /\ handleRaycast objects tap s' = s'.
Proof.
  intros s objects s' Hm Hhit Hlt.
  destruct (run_inv es) as [(_ & S2 & _) _]. fold s in S2.
  assert (Hd : directHit objects tap = Z.of_nat m).
  { unfold objects. rewrite directHit_build, Hhit.
    destruct (Nat.ltb_spec m 150); [reflexivity | lia]. }
  assert (Hgen : forall t, activeMonthRef t = None ->
            handleRaycast objects tap t = setActivePhoto (Z.of_nat m) t).
  { intros t Ht. unfold handleRaycast. rewrite Ht, Hd.
    destruct (Z.eqb_spec (Z.of_nat m) (-1)); [lia|]. cbn [andb].
    destruct (Z.eqb_spec (Z.of_nat m) (-1)); [lia|]. reflexivity. }
  assert (Hs' : s' = setActivePhoto (Z.of_nat m) s).
  { apply Hgen. congruence. }
  split; [exact Hs'|]. rewrite Hs'. split; [reflexivity|].
  split; [reflexivity|].
  rewrite Hgen; [reflexivity|]. simpl. congruence.
Qed.

Lemma handleRaycast_direct_photo_witness :
  let tap := {| hit := Some 42%nat; innerWidth := 1920;
                distanceTo := fun _ => (1 # 2)%Q; random := (1 # 2)%Q |} in
  activePhotoId (handleRaycast (build_objects []) tap initial) = 42.
Proof.
  intros tap.
  destruct (handleRaycast_direct_photo [] tap 42) as (_ & H & _);
    [reflexivity | reflexivity | lia | exact H].
Defined.

(** X3. Outside film mode, on a viewport at least 768 px wide, a tap that
    hits nothing, an ornament, or a mesh that is no scene object leaves
    the whole state unchanged. *)
Theorem handleRaycast_wide_miss (es : list Event) (tap : Tap) :
  let s := run es in
  let objects := build_objects (userTextures s) in
  match hit tap with Some m => (150 <= m)%nat | None => True end ->
  768 <= innerWidth tap ->
  handleRaycast objects tap s = s.
Proof.
  intros s objects Hhit Hw. unfold handleRaycast.
  destruct (activeMonthRef s); [reflexivity|].
  assert (Hd : directHit objects tap = -1).
  { unfold objects. rewrite directHit_build.
    destruct (hit tap) as [m|]; [|reflexivity].
    destruct (Nat.ltb_spec m 150); [lia | reflexivity]. }
  rewrite Hd. change (-1 =? -1) with true.
  destruct (Z.ltb_spec (innerWidth tap) 768); [lia|]. reflexivity.
Qed.

Lemma handleRaycast_wide_miss_witness :
  let tap := {| hit := Some 200%nat; innerWidth := 1920;
                distanceTo := fun _ => 0%Q; random := 0%Q |} in
  handleRaycast (build_objects []) tap initial = initial.
Proof.
  intros tap.
  assert (H1 : (150 <= 200)%nat) by lia.
  assert (H2 : 768 <= 1920) by lia.
  exact (handleRaycast_wide_miss [] tap H1 H2).
Defined.

End Resolver.

(** ** The gesture interpreter: what a frame can and cannot do *)

Section Interpreter.

Import MediaPipe App.
Local Open Scope Z_scope.

Lemma monthSelection_cases now results s :
  monthSelection now results s = s
  \/ exists c,
       isFormedRef s = false /\ totalCount (landmarks results) = Some c
       /\ 1 <= c <= 12 /\ nowGate now - lastStateChangeTime s > 2000
       /\ activeMonthRef s <> Some c
       /\ monthSelection now results s =
          setGestureStatus ("Month: " +:+ pretty c) (setActiveMonth (Some c) s).
Proof.
  unfold monthSelection.
  destruct (isFormedRef s) eqn:F; simpl; [auto|].
  destruct (totalCount (landmarks results)) as [c|]; [|auto].
  destruct (Z.gtb_spec (nowGate now - lastStateChangeTime s) 2000); [|auto].
  destruct (Z.geb_spec c 1); [|auto]. destruct (Z.leb_spec c 12); [|auto].
  simpl. destruct (month_eqb (activeMonthRef s) (Some c)) eqn:E; simpl; [auto|].
  right. exists c. repeat split; try lia; try reflexivity.
  intros Heq. apply month_eqb_eq in Heq. congruence.
Qed.

Lemma fistOrPalm_cases now name s :
  fistOrPalm now name s = s
  \/ (name = "Closed_Fist"%string
      /\ (isFormedRef s = false \/ activeMonthRef s <> None)
      /\ fistOrPalm now name s =
         set_lastStateChangeTime (nowStamp now)
           (setActiveMonth None (setFormed true s)))
  \/ (name = "Open_Palm"%string /\ isFormedRef s = true
      /\ fistOrPalm now name s =
         set_lastStateChangeTime (nowStamp now) (setFormed false s)).
Proof.
  unfold fistOrPalm.
  destruct (String.eqb_spec name "Closed_Fist") as [-> | Hn].
  - destruct (isFormedRef s) eqn:F; simpl.
    + destruct (month_eqb (activeMonthRef s) None) eqn:E; simpl; [auto|].
      right. left. repeat split. right. intros Heq.
      apply month_eqb_None in Heq. congruence.
    + right. left. auto.
  - destruct (String.eqb_spec name "Open_Palm") as [-> | Hp]; [|auto].
    destruct (isFormedRef s) eqn:F; auto.
Qed.

Lemma render_keeps (h : State) :
  cameraActive (render h) = cameraActive h
  /\ lastVideoTimeRef (render h) = lastVideoTimeRef h
  /\ gestureStatus (render h) = gestureStatus h
  /\ handPos (render h) = handPos h
  /\ userTextures (render h) = userTextures h
  /\ sceneReady (render h) = sceneReady h
  /\ (activeMonth h = activeMonthRef h \/ activeMonth h = None ->
      isFormed (render h) = isFormed h
      /\ activePhotoId (render h) = activePhotoId h).
Proof.
  destruct h; unfold render; simpl.
  destruct (month_eqb activeMonth0 activeMonthRef0) eqn:E; simpl.
  - auto 10.
  - destruct activeMonth0 as [m|]; simpl; [|auto 10].
    do 6 (split; [reflexivity|]). intros [Heq | Heq]; [|discriminate].
    rewrite Heq, month_eqb_refl in E. discriminate.
Qed.

(** X4. A category is entered only by a processed frame, seen while the
    session is scattered and more than 2000 ms after the last fist or
    palm transition, whose finger count is that category and lies in
    1..12; no other event, and no frame short of these conditions, sets
    a category. *)
Theorem category_entered_only_by_count (es : list Event) (e : Event) (c : Z) :
  let s := run es in
  activeMonth (step s e) = Some c ->
  activeMonth s <> Some c ->
  exists ready now results,
    e = Frame ready now results
    /\ ready = true /\ cameraActive s = true
    /\ nowInMs now <> lastVideoTimeRef s
    /\ gestures results <> []
    /\ isFormed s = false
    /\ totalCount (landmarks results) = Some c
    /\ 1 <= c <= 12
    /\ nowGate now - lastStateChangeTime s > 2000.
Proof.
  intros s Hc Hne.
  destruct (run_inv es) as [(S1 & S2 & S3 & S4) Ex]. fold s in S1, S2, S3, S4, Ex.
  unfold step in Hc. rewrite (proj1 (render_effect _)) in Hc.
  destruct e as [ready now results|tap| | | |loaded granted|selected completions];
    simpl in Hc.
  - exists ready, now, results. split; [reflexivity|].
    unfold gestureLogic in Hc. rewrite S3 in Hc.
    destruct (cameraActive s); [|contradiction]. destruct ready; [|contradiction].
    simpl in Hc.
    destruct (Z.eqb_spec (nowInMs now) (lastVideoTimeRef s)); [contradiction|].
    simpl in Hc.
    destruct (gestures results) as [|[top others] more]; [contradiction|].
    set (s1 := setGestureStatus _ _) in Hc.
    do 4 (split; [auto; discriminate|]).
    rewrite (proj1 (proj2 (parallax_effect results _))) in Hc.
    destruct (fistOrPalm_cases now (categoryName top)
                (monthSelection now results s1))
      as [P | [(_ & _ & P) | (_ & _ & P)]]; rewrite P in Hc.
    + destruct (monthSelection_cases now results s1)
        as [M | (c' & M1 & M2 & M3 & M4 & M5 & M)]; rewrite M in Hc.
      * contradiction.
      * simpl in Hc, M1, M4. inversion Hc; subst c'.
        repeat split; try lia; congruence.
    + discriminate Hc.
    + simpl in Hc.
      destruct (monthSelection_cases now results s1)
        as [M | (c' & M1 & M2 & M3 & M4 & M5 & M)]; rewrite M in Hc.
      * contradiction.
      * simpl in Hc, M1, M4. inversion Hc; subst c'.
        repeat split; try lia; congruence.
  - destruct (handleRaycast_effect (build_objects (userTextures s)) tap s)
      as (_ & _ & R & _). congruence.
  - unfold handleNext in Hc. destruct (_ =? _) in Hc; simpl in Hc; contradiction.
  - unfold handlePrev in Hc. destruct (_ =? _) in Hc; simpl in Hc; contradiction.
  - simpl in Hc. contradiction.
  - unfold enableCam in Hc. destruct (negb loaded); [contradiction|].
    destruct (cameraActive s); simpl in Hc; [discriminate|].
    destruct granted; simpl in Hc; contradiction.
  - unfold handleUpload in Hc. destruct (Nat.ltb 0 (length selected));
      [|contradiction].
    match type of Hc with context [fold_left _ completions (?b, s)] =>
      destruct (upload_fold_effect completions b s) as (_ & U & _) end.
    congruence.
Qed.

Lemma category_entered_only_by_count_witness :
  let results :=
    {| gestures := [({| categoryName := "None" |}, [])];
       landmarks := [synthetic_hand true true true false false] |} in
  totalCount (landmarks results) = Some 3
  /\ 3000 - lastStateChangeTime camera_on > 2000.
Proof.
  intros results.
  destruct (category_entered_only_by_count [CamButton true true]
              (Frame true (at_ms 3000) results) 3)
    as (ready & now & r & He & _ & _ & _ & _ & _ & Hcount & _ & Hgate).
  - reflexivity.
  - discriminate.
  - inversion He; subst. split; [exact Hcount | exact Hgate].
Defined.

Lemma processed_frame_time now results top others more s :
  cameraActiveRef s = true ->
  nowInMs now <> lastVideoTimeRef s ->
  gestures results = (top, others) :: more ->
  lastVideoTimeRef (step s (Frame true now results)) = nowInMs now.
Proof.
  intros Hc Ht Hg. unfold step. simpl handle.
  rewrite (proj1 (proj2 (render_keeps _))).
  rewrite (gestureLogic_processed now results top others more s Hc Ht Hg).
  set (s1 := setGestureStatus _ _).
  destruct (monthSelection_effect now results s1)
    as (_ & _ & _ & _ & _ & _ & _ & _ & M & _).
  destruct (fistOrPalm_effect now (categoryName top)
              (monthSelection now results s1))
    as (_ & _ & _ & _ & _ & _ & P & _).
  unfold parallax. destruct (landmarks results); simpl; rewrite P, M;
    reflexivity.
Qed.

Lemma frame_keeps_camera ready now results s :
  cameraActive (step s (Frame ready now results)) = cameraActive s.
Proof.
  unfold step. simpl handle. rewrite (proj1 (render_keeps _)).
  apply gestureLogic_effect.
Qed.

(** X5. Category changes are not debounced against each other: while the
    session is scattered and the cooldown since the last fist or palm
    has run out, two frames showing different counts in 1..12 both
    change the category, however close in time they are, and the
    transition time stays what it was. *)
Theorem month_signals_are_not_debounced (es : list Event)
  (now1 now2 : Clock) (r1 r2 : GestureRecognizerResult)
  (top1 top2 : Category) (o1 o2 : list Category)
  (m1 m2 : list (Category * list Category)) (c1 c2 : Z) :
  let s := run es in
  let s1 := step s (Frame true now1 r1) in
  let s2 := step s1 (Frame true now2 r2) in
  cameraActive s = true -> isFormed s = false ->
  gestures r1 = (top1, o1) :: m1 -> gestures r2 = (top2, o2) :: m2 ->
  categoryName top1 <> "Closed_Fist"%string ->
  categoryName top2 <> "Closed_Fist"%string ->
  totalCount (landmarks r1) = Some c1 -> totalCount (landmarks r2) = Some c2 ->
  1 <= c1 <= 12 -> 1 <= c2 <= 12 ->
  activeMonth s <> Some c1 -> c1 <> c2 ->
  nowInMs now1 <> lastVideoTimeRef s -> nowInMs now2 <> nowInMs now1 ->
  nowGate now1 - lastStateChangeTime s > 2000 ->
  nowGate now1 <= nowGate now2 ->
  activeMonth s1 = Some c1 /\ activeMonth s2 = Some c2
  /\ lastStateChangeTime s2 = lastStateChangeTime s.
Proof.
  intros s s1 s2 Hc Hf Hg1 Hg2 Hn1 Hn2 Ht1 Ht2 Hr1 Hr2 Hm Hne Hv1 Hv2 Hgate Hle.
  destruct (run_inv es) as [Sy Ex]. fold s in Sy, Ex.
  destruct (month_signal_applies s now1 r1 top1 o1 m1 c1) as [A1 A2]; auto.
  fold s1 in A1, A2.
  destruct (step_inv s (Frame true now1 r1) (conj Sy Ex)) as [Sy1 Ex1].
  fold s1 in Sy1, Ex1.
  assert (Hc1 : cameraActive s1 = true).
  { unfold s1. rewrite frame_keeps_camera. exact Hc. }
  assert (Hv : lastVideoTimeRef s1 = nowInMs now1).
  { apply (processed_frame_time now1 r1 top1 o1 m1); auto.
    destruct Sy as (_ & _ & -> & _). exact Hc. }
  destruct (month_signal_applies s1 now2 r2 top2 o2 m2 c2) as [B1 B2]; auto.
  - congruence.
  - apply Ex1. congruence.
  - congruence.
  - lia.
  - fold s2 in B1, B2. split; [exact A1|]. split; [exact B1|]. congruence.
Qed.

(** The theorem for three fingers at 3000 ms and five fingers 16 ms
    later, right after the camera was switched on. *)
Lemma month_signals_are_not_debounced_witness :
  let three := synthetic_hand true true true false false in
  let five := synthetic_hand true true true true true in
  let s1 := step camera_on (frame 3000 "None" [three]) in
  let s2 := step s1 (frame 3016 "None" [five]) in
  activeMonth s1 = Some 3 /\ activeMonth s2 = Some 5
  /\ lastStateChangeTime s2 = lastStateChangeTime camera_on.
Proof.
  intros three five s1 s2.
  apply (month_signals_are_not_debounced [CamButton true true]
           (at_ms 3000) (at_ms 3016)
           {| gestures := [({| categoryName := "None" |}, [])];
              landmarks := [three] |}
           {| gestures := [({| categoryName := "None" |}, [])];
              landmarks := [five] |}
           {| categoryName := "None" |} {| categoryName := "None" |}
           [] [] [] [] 3 5);
    try reflexivity; try discriminate; try lia.
Defined.

(** X6. An open palm seen while the session is formed scatters it and
    stamps the transition time; no category is set by that frame. *)
Theorem open_palm_scatters (es : list Event) (now : Clock)
  (results : GestureRecognizerResult) (top : Category)
  (others : list Category) (more : list (Category * list Category)) :
  let s := run es in
  let s' := step s (Frame true now results) in
  cameraActive s = true ->
  nowInMs now <> lastVideoTimeRef s ->
  gestures results = (top, others) :: more ->
  categoryName top = "Open_Palm"%string ->
  isFormed s = true ->
  isFormed s' = false /\ activeMonth s' = None
  /\ lastStateChangeTime s' = nowStamp now.
Proof.
  intros s s' Hc Ht Hg Hn Hf.
  destruct (run_inv es) as [(S1 & S2 & S3 & S4) Ex].
  fold s in S1, S2, S3, S4, Ex.
  assert (Hm : activeMonth s = None).
  { destruct (activeMonth s) eqn:E; [|reflexivity].
    destruct Ex as [Ex _]; congruence. }
  assert (Hh : let h := gestureLogic true now results s in
               isFormed h = false /\ activeMonth h = None
               /\ lastStateChangeTime h = nowStamp now).
  { rewrite (gestureLogic_processed now results top others more s);
      [|congruence|assumption|assumption].
    set (s1 := setGestureStatus _ _).
    assert (M : monthSelection now results s1 = s1).
    { unfold monthSelection. simpl isFormedRef. rewrite S1, Hf. reflexivity. }
    rewrite M. cbv zeta.
    destruct (parallax_effect results (fistOrPalm now (categoryName top) s1))
      as (-> & -> & ->).
    unfold fistOrPalm. rewrite Hn. simpl String.eqb. cbv iota.
    simpl isFormedRef. rewrite S1, Hf. simpl. auto. }
  destruct Hh as (H1 & H2 & H3).
  unfold s', step. simpl handle.
  destruct (render_effect (gestureLogic true now results s)) as (R1 & R2 & R3).
  rewrite R1, R2, (R3 H2). auto.
Qed.

Lemma open_palm_scatters_witness :
  let five := synthetic_hand true true true true true in
  let es := [CamButton true true; frame 3000 "Closed_Fist" [five]] in
  isFormed (run es) = true
  /\ isFormed (step (run es) (frame 3016 "Open_Palm" [five])) = false
  /\ activeMonth (step (run es) (frame 3016 "Open_Palm" [five])) = None
  /\ lastStateChangeTime (step (run es) (frame 3016 "Open_Palm" [five]))
     = 3016.
Proof.
  intros five es. split; [reflexivity|].
  apply (open_palm_scatters es (at_ms 3016)
           {| gestures := [({| categoryName := "Open_Palm" |}, [])];
              landmarks := [five] |}
           {| categoryName := "Open_Palm" |} [] []);
    try reflexivity.
  vm_compute. intros H. discriminate H.
Defined.

(** X7. While a category is active an open palm does not leave film mode:
    the session stays scattered with some category, and the transition
    time is not stamped. *)
Theorem open_palm_keeps_film_mode (es : list Event) (now : Clock)
  (results : GestureRecognizerResult) (top : Category)
  (others : list Category) (more : list (Category * list Category)) :
  let s := run es in
  let s' := step s (Frame true now results) in
  activeMonth s <> None ->
  gestures results = (top, others) :: more ->
  categoryName top = "Open_Palm"%string ->
  activeMonth s' <> None /\ isFormed s' = false
  /\ lastStateChangeTime s' = lastStateChangeTime s.
Proof.
  intros s s' Hm Hg Hn.
  destruct (run_inv es) as [(S1 & S2 & S3 & S4) Ex].
  fold s in S1, S2, S3, S4, Ex.
  destruct (Ex Hm) as [Hf _].
  destruct (step_inv s (Frame true now results)) as [_ Ex'];
    [split; [repeat split; assumption | exact Ex]|].
  fold s' in Ex'.
  assert (Hh : let h := gestureLogic true now results s in
               activeMonth h <> None
               /\ lastStateChangeTime h = lastStateChangeTime s).
  { cbv zeta. unfold gestureLogic.
    destruct (cameraActiveRef s && true); [|auto].
    destruct (negb _); [|auto]. rewrite Hg.
    set (s1 := setGestureStatus _ _).
    destruct (parallax_effect results
                (fistOrPalm now (categoryName top)
                   (monthSelection now results s1))) as (_ & -> & ->).
    assert (P : forall t, isFormedRef t = false ->
                  fistOrPalm now (categoryName top) t = t).
    { intros t Ht. unfold fistOrPalm. rewrite Hn. simpl String.eqb. cbv iota.
      rewrite Ht. reflexivity. }
    rewrite P.
    - destruct (monthSelection_cases now results s1)
        as [M | (c & _ & _ & _ & _ & _ & M)]; rewrite M; simpl; auto.
    - destruct (monthSelection_effect now results s1) as (_ & M & _).
      simpl in M. congruence. }
  destruct Hh as [H1 H2].
  assert (A : activeMonth s' <> None).
  { unfold s', step. simpl handle. rewrite (proj1 (render_effect _)). exact H1. }
  split; [exact A|]. split; [apply Ex', A|].
  unfold s', step. simpl handle.
  rewrite (proj1 (proj2 (render_effect _))). exact H2.
Qed.

Lemma open_palm_keeps_film_mode_witness :
  let three := synthetic_hand true true true false false in
  let five := synthetic_hand true true true true true in
  let es := [CamButton true true; frame 3000 "None" [three]] in
  activeMonth (run es) = Some 3
  /\ activeMonth (step (run es) (frame 3016 "Open_Palm" [five])) <> None.
Proof.
  intros three five es. split; [reflexivity|].
  apply (open_palm_keeps_film_mode es (at_ms 3016)
           {| gestures := [({| categoryName := "Open_Palm" |}, [])];
              landmarks := [five] |}
           {| categoryName := "Open_Palm" |} [] []);
    try reflexivity.
  vm_compute. intros H. discriminate H.
Defined.

(** X8. The same video timestamp is never processed twice: once a frame
    has been handled with the camera on, another frame carrying the
    same timestamp changes nothing, whatever it shows. *)
Theorem frame_not_processed_twice (es : list Event) (now now' : Clock)
  (results results' : GestureRecognizerResult) (ready' : bool) :
  let s := run es in
  let s1 := step s (Frame true now results) in
  cameraActive s = true ->
  nowInMs now' = nowInMs now ->
  step s1 (Frame ready' now' results') = s1.
Proof.
  intros s s1 Hc Heq.
  destruct (run_inv es) as [Sy Ex]. fold s in Sy, Ex.
  destruct (step_inv s (Frame true now results) (conj Sy Ex)) as [Sy1 _].
  fold s1 in Sy1.
  assert (Hv : lastVideoTimeRef s1 = nowInMs now).
  { unfold s1, step. simpl handle. rewrite (proj1 (proj2 (render_keeps _))).
    unfold gestureLogic. destruct Sy as (_ & _ & -> & _). rewrite Hc. simpl.
    destruct (Z.eqb_spec (nowInMs now) (lastVideoTimeRef s)) as [E | E];
      simpl; [congruence|].
    destruct (gestures results) as [|[top others] more]; [reflexivity|].
    set (t := setGestureStatus _ _).
    destruct (monthSelection_effect now results t)
      as (_ & _ & _ & _ & _ & _ & _ & _ & M & _).
    destruct (fistOrPalm_effect now (categoryName top)
                (monthSelection now results t))
      as (_ & _ & _ & _ & _ & _ & P & _).
    unfold parallax. destruct (landmarks results); simpl; rewrite P, M;
      reflexivity. }
  unfold step at 1. simpl handle.
  assert (G : gestureLogic ready' now' results' s1 = s1).
  { unfold gestureLogic. destruct (cameraActiveRef s1 && ready'); [|reflexivity].
    rewrite Hv, Heq, Z.eqb_refl. reflexivity. }
  rewrite G. apply render_synced, Sy1.
Qed.

Lemma frame_not_processed_twice_witness :
  let three := synthetic_hand true true true false false in
  let five := synthetic_hand true true true true true in
  let s1 := step camera_on (frame 3000 "None" [three]) in
  step s1 (frame 3000 "Closed_Fist" [five]) = s1.
Proof.
  intros three five s1.
  apply (frame_not_processed_twice [CamButton true true]
           (at_ms 3000) (at_ms 3000)); reflexivity.
Defined.

(** X9. A frame for which the recognizer classifies no gesture only sets
    the status to "None": mode, selection, transition time and the
    parallax pointer stay as they are, even when hands were detected. *)
Theorem no_gesture_no_change (es : list Event) (ready : bool) (now : Clock)
  (results : GestureRecognizerResult) :
  let s := run es in
  let s' := step s (Frame ready now results) in
  gestures results = [] ->
  isFormed s' = isFormed s /\ activeMonth s' = activeMonth s
  /\ activePhotoId s' = activePhotoId s
  /\ lastStateChangeTime s' = lastStateChangeTime s
  /\ handPos s' = handPos s
  /\ (gestureStatus s' = gestureStatus s \/ gestureStatus s' = "None"%string).
Proof.
  intros s s' Hg.
  destruct (run_inv es) as [Sy Ex]. fold s in Sy, Ex.
  assert (G : gestureLogic ready now results s = s
              \/ gestureLogic ready now results s =
                 setGestureStatus "None"
                   (set_lastVideoTimeRef (nowInMs now) s)).
  { unfold gestureLogic. destruct (_ && _); [|auto].
    destruct (negb _); [|auto]. rewrite Hg. auto. }
  unfold s', step. simpl handle.
  destruct G as [-> | ->].
  - rewrite (render_synced s Sy). auto 10.
  - rewrite render_synced; [simpl; auto 10|].
    destruct Sy as (S1 & S2 & S3 & S4). repeat split; assumption.
Qed.

Lemma no_gesture_no_change_witness :
  let three := synthetic_hand true true true false false in
  let results := {| gestures := []; landmarks := [three] |} in
  activeMonth (step camera_on (Frame true (at_ms 3000) results)) = None
  /\ gestureStatus (step camera_on (Frame true (at_ms 3000) results))
     = "None"%string.
Proof.
  intros three results.
  destruct (no_gesture_no_change [CamButton true true] true (at_ms 3000) results)
    as (_ & H & _); [reflexivity|].
  split; [exact H | reflexivity].
Defined.

End Interpreter.

(** ** The session: selection range, carousel, camera button *)

Section Session.

Import MediaPipe App.
Local Open Scope Z_scope.

Lemma run_snoc (es : list Event) (e : Event) :
  run (es ++ [e]) = step (run es) e.
Proof. unfold run. rewrite fold_left_app. reflexivity. Qed.

Lemma setActivePhoto_same (s : State) :
  uiActiveId s = activePhotoId s -> setActivePhoto (activePhotoId s) s = s.
Proof. destruct s; unfold setActivePhoto; simpl. intros ->. reflexivity. Qed.

(** What a tap can select in the scene built from any texture list:
    nothing new, or one of the photos. *)
Lemma handleRaycast_range (ut : list Item.t) (tap : Tap) (s : State) :
  unit_interval (random tap) ->
  let s' := handleRaycast (build_objects ut) tap s in
  s' = s \/ 0 <= activePhotoId s' < PHOTO_COUNT.
Proof.
  intros Hr. unfold handleRaycast.
  destruct (activeMonthRef s); [auto|].
  set (objects := build_objects ut).
  assert (Hd : directHit objects tap = -1
               \/ 0 <= directHit objects tap < PHOTO_COUNT).
  { unfold objects. rewrite directHit_build. unfold PHOTO_COUNT.
    destruct (hit tap) as [m|]; [|auto].
    destruct (Nat.ltb_spec m 150); [right; lia | auto]. }
  assert (Hmag : magnetism objects tap (-1) = -1
                 \/ 0 <= magnetism objects tap (-1) < PHOTO_COUNT).
  { unfold magnetism.
    destruct (magnet_fold tap objects (15 # 100) (-1))
      as (_ & _ & [C | (p & Hp & Hdeco & C & _)]); rewrite C; simpl; [auto|].
    right. destruct (build_objects_id ut p Hp) as [H1 H2].
    apply H2 in Hdeco. lia. }
  assert (Hfl : 0 <= Qfloor (random tap * inject_Z PHOTO_COUNT) < PHOTO_COUNT).
  { unfold PHOTO_COUNT. destruct Hr as [Hr0 Hr1]. split.
    - change 0 with (Qfloor 0). apply Qfloor_resp_le.
      change (inject_Z 150) with (150 # 1)%Q. lra.
    - rewrite Zlt_Qlt. eapply Qle_lt_trans; [apply Qfloor_le|].
      change (inject_Z 150) with (150 # 1)%Q. lra. }
  set (fl := Qfloor (random tap * inject_Z PHOTO_COUNT)) in *.
  destruct Hd as [Hd | Hd].
  - rewrite Hd. change (-1 =? -1) with true. cbn [andb].
    destruct (innerWidth tap <? 768).
    + destruct Hmag as [Hmag | Hmag].
      * rewrite Hmag. change (-1 =? -1) with true. cbn [andb].
        destruct (Z.eqb_spec (activePhotoId s) (-1)).
        -- destruct (Z.eqb_spec fl (-1)); [lia|]. right. exact Hfl.
        -- auto.
      * destruct (Z.eqb_spec (magnetism objects tap (-1)) (-1)); [lia|].
        cbn [andb].
        destruct (Z.eqb_spec (magnetism objects tap (-1)) (-1)); [lia|].
        right. exact Hmag.
    + auto.
  - destruct (Z.eqb_spec (directHit objects tap) (-1)); [lia|]. cbn [andb].
    destruct (Z.eqb_spec (directHit objects tap) (-1)); [lia|].
    right. exact Hd.
Qed.

Lemma render_selection (h : State) :
  activePhotoId (render h) = activePhotoId h \/ activePhotoId (render h) = -1.
Proof.
  destruct h; unfold render; simpl.
  destruct (month_eqb _ _); simpl; auto. destruct activeMonth0; simpl; auto.
Qed.

Lemma step_selection_range (s : State) (e : Event) :
  well_formed e ->
  -1 <= activePhotoId s < PHOTO_COUNT ->
  -1 <= activePhotoId (step s e) < PHOTO_COUNT.
Proof.
  intros Hwf Hr. unfold step.
  assert (H : -1 <= activePhotoId (handle e s) < PHOTO_COUNT).
  { destruct e as [ready now results|tap| | | |loaded granted|selected completions];
      simpl in *.
    - destruct (gestureLogic_effect ready now results s)
        as (_ & _ & _ & _ & _ & G & _). rewrite G. exact Hr.
    - destruct (handleRaycast_range (userTextures s) tap s Hwf) as [-> | H];
        [exact Hr | lia].
    - unfold handleNext. destruct (Z.eqb_spec (activePhotoId s) (-1));
        [exact Hr|]. simpl. unfold PHOTO_COUNT in *.
      pose proof (Z.rem_bound_pos (activePhotoId s + 1) 150). lia.
    - unfold handlePrev. destruct (Z.eqb_spec (activePhotoId s) (-1));
        [exact Hr|]. simpl. unfold PHOTO_COUNT in *.
      pose proof (Z.rem_bound_pos (activePhotoId s - 1 + 150) 150). lia.
    - unfold PHOTO_COUNT. lia.
    - unfold enableCam. destruct (negb loaded); [exact Hr|].
      destruct (cameraActive s); simpl; [exact Hr|].
      destruct granted; exact Hr.
    - unfold handleUpload. destruct (Nat.ltb 0 (length selected)); [|exact Hr].
      match goal with |- context [fold_left _ completions (?b, s)] =>
        destruct (upload_fold_effect completions b s) as (_ & _ & _ & _ & U)
      end. rewrite U. exact Hr. }
  destruct (render_selection (handle e s)) as [-> | ->];
    [exact H | unfold PHOTO_COUNT; lia].
Qed.

Lemma run_selection_range (es : list Event) :
  Forall well_formed es -> -1 <= activePhotoId (run es) < PHOTO_COUNT.
Proof.
  induction es as [|e es IH] using rev_ind; intros Hwf.
  - unfold PHOTO_COUNT. simpl. lia.
  - apply Forall_app in Hwf. destruct Hwf as [Hes He].
    rewrite run_snoc. apply step_selection_range.
    + inversion He; assumption.
    + apply IH, Hes.
Qed.

(** X10. The selection is always either none (-1) or the id of a photo: no
    run of handlers selects an ornament or an id outside the scene, and
    the id the overlay shows is the selected one. *)
Theorem selection_is_none_or_photo (es : list Event) :
  Forall well_formed es ->
  -1 <= activePhotoId (run es) < PHOTO_COUNT
  /\ uiActiveId (run es) = activePhotoId (run es).
Proof.
  intros Hwf. split; [apply run_selection_range, Hwf|].
  apply run_inv.
Qed.

Lemma selection_is_none_or_photo_witness :
  let tap := {| hit := Some 399%nat; innerWidth := 390;
                distanceTo := fun _ => (1 # 2)%Q; random := (999 # 1000)%Q |} in
  -1 <= activePhotoId (run [Click tap; Next]) < PHOTO_COUNT.
Proof.
  intros tap.
  apply (selection_is_none_or_photo [Click tap; Next]).
  repeat constructor; discriminate.
Defined.

(** X11. With a photo selected, "next" moves to the following id and wraps
    from 149 to 0, "previous" to the preceding id and wraps from 0 to
    149, and each undoes the other. *)
Theorem carousel_next_prev (es : list Event) :
  let s := run es in
  let i := activePhotoId s in
  Forall well_formed es ->
  i <> -1 ->
  activePhotoId (step s Next) = (if i =? 149 then 0 else i + 1)
  /\ activePhotoId (step s Prev) = (if i =? 0 then 149 else i - 1)
  /\ step (step s Next) Prev = s
  /\ step (step s Prev) Next = s.
Proof.
  intros s i Hwf Hsel.
  destruct (run_inv es) as [Sy Ex]. fold s in Sy, Ex.
  pose proof (run_selection_range es Hwf) as Hr. fold s in Hr. fold i in Hr.
  unfold PHOTO_COUNT in Hr.
  assert (HN : step s Next = setActivePhoto (if i =? 149 then 0 else i + 1) s).
  { unfold step. simpl handle. unfold handleNext. fold i.
    destruct (Z.eqb_spec i (-1)); [contradiction|].
    replace (Z.rem (i + 1) PHOTO_COUNT) with (if i =? 149 then 0 else i + 1).
    - apply render_synced. destruct Sy as (S1 & S2 & S3 & S4).
      repeat split; assumption.
    - unfold PHOTO_COUNT. destruct (Z.eqb_spec i 149) as [-> | Hne];
        [reflexivity|]. rewrite Z.rem_small; lia. }
  assert (HP : step s Prev = setActivePhoto (if i =? 0 then 149 else i - 1) s).
  { unfold step. simpl handle. unfold handlePrev. fold i.
    destruct (Z.eqb_spec i (-1)); [contradiction|].
    replace (Z.rem (i - 1 + PHOTO_COUNT) PHOTO_COUNT)
      with (if i =? 0 then 149 else i - 1).
    - apply render_synced. destruct Sy as (S1 & S2 & S3 & S4).
      repeat split; assumption.
    - unfold PHOTO_COUNT. destruct (Z.eqb_spec i 0) as [-> | Hne];
        [reflexivity|].
      replace (i - 1 + 150) with (i - 1 + 1 * 150) by lia.
      rewrite Z.rem_add by lia. rewrite Z.rem_small; lia. }
  assert (Hback : forall j, setActivePhoto i (setActivePhoto j s) = s).
  { intros j. destruct Sy as (_ & _ & _ & S4). revert S4. unfold i.
    destruct s; unfold setActivePhoto; simpl. intros ->. reflexivity. }
  split; [rewrite HN; reflexivity|]. split; [rewrite HP; reflexivity|].
  split.
  - rewrite HN. unfold step. simpl handle. unfold handlePrev.
    set (j := if i =? 149 then 0 else i + 1).
    change (activePhotoId (setActivePhoto j s)) with j.
    assert (Hj : 0 <= j < 150 /\ Z.rem (j - 1 + PHOTO_COUNT) PHOTO_COUNT = i).
    { unfold j, PHOTO_COUNT. destruct (Z.eqb_spec i 149) as [-> | Hne];
        [split; [lia | reflexivity]|]. split; [lia|].
      replace (i + 1 - 1 + 150) with (i + 1 * 150) by lia.
      rewrite Z.rem_add by lia. rewrite Z.rem_small; lia. }
    destruct Hj as [Hj1 Hj2].
    destruct (Z.eqb_spec j (-1)); [lia|]. rewrite Hj2, Hback.
    apply render_synced, Sy.
  - rewrite HP. unfold step. simpl handle. unfold handleNext.
    set (j := if i =? 0 then 149 else i - 1).
    change (activePhotoId (setActivePhoto j s)) with j.
    assert (Hj : 0 <= j < 150 /\ Z.rem (j + 1) PHOTO_COUNT = i).
    { unfold j, PHOTO_COUNT. destruct (Z.eqb_spec i 0) as [-> | Hne];
        [split; [lia | reflexivity]|]. split; [lia|].
      replace (i - 1 + 1) with i by lia. rewrite Z.rem_small; lia. }
    destruct Hj as [Hj1 Hj2].
    destruct (Z.eqb_spec j (-1)); [lia|]. rewrite Hj2, Hback.
    apply render_synced, Sy.
Qed.

Lemma carousel_next_prev_witness :
  let tap := {| hit := Some 149%nat; innerWidth := 1920;
                distanceTo := fun _ => (1 # 2)%Q; random := 0%Q |} in
  activePhotoId (step (run [Click tap]) Next) = 0
  /\ step (step (run [Click tap]) Next) Prev = run [Click tap].
Proof.
  intros tap.
  destruct (carousel_next_prev [Click tap]) as (H1 & _ & H2 & _).
  - repeat constructor; discriminate.
  - vm_compute. intros H. discriminate H.
  - split; [exact H1 | exact H2].
Defined.

(** X12. With nothing selected, "next" and "previous" do nothing, and
    "close" always clears the selection and nothing else. *)
Theorem carousel_without_selection (es : list Event) :
  let s := run es in
  (activePhotoId s = -1 -> step s Next = s /\ step s Prev = s)
  /\ activePhotoId (step s Close) = -1
  /\ isFormed (step s Close) = isFormed s
  /\ activeMonth (step s Close) = activeMonth s.
Proof.
  intros s. destruct (run_inv es) as [Sy Ex]. fold s in Sy, Ex.
  assert (HC : step s Close = setActivePhoto (-1) s).
  { unfold step. simpl handle. apply render_synced.
    destruct Sy as (S1 & S2 & S3 & S4). repeat split; assumption. }
  split; [|rewrite HC; auto].
  intros Hsel. unfold step. simpl handle. unfold handleNext, handlePrev.
  rewrite Hsel. simpl. split; apply render_synced, Sy.
Qed.

Lemma carousel_without_selection_witness :
  step initial Next = initial /\ step initial Prev = initial.
Proof.
  apply (carousel_without_selection []). reflexivity.
Defined.

(** X13. Pressing the camera button while the camera is on switches it off,
    scatters the session and leaves film mode; the selection stays, and
    from then on video frames are ignored. Without a loaded recognizer
    the button does nothing. *)
Theorem camera_button_off (es : list Event) (granted : bool) :
  let s := run es in
  let s' := step s (CamButton true granted) in
  (cameraActive s = true ->
   cameraActive s' = false /\ isFormed s' = false /\ activeMonth s' = None
   /\ activePhotoId s' = activePhotoId s
   /\ forall ready now results, step s' (Frame ready now results) = s')
  /\ step s (CamButton false granted) = s.
Proof.
  intros s s'. destruct (run_inv es) as [Sy Ex]. fold s in Sy, Ex.
  split; [|unfold step; simpl; apply render_synced, Sy].
  intros Hc.
  assert (Hh : handle (CamButton true granted) s =
               setActiveMonth None (setFormed false (setCameraActive false s))).
  { simpl. unfold enableCam. simpl. rewrite Hc. reflexivity. }
  destruct (step_inv s (CamButton true granted) (conj Sy Ex)) as [Sy' Ex'].
  fold s' in Sy', Ex'.
  assert (H1 : cameraActive s' = false).
  { unfold s', step. rewrite (proj1 (render_keeps _)), Hh. reflexivity. }
  assert (H2 : activeMonth s' = None).
  { unfold s', step. rewrite (proj1 (render_effect _)), Hh. reflexivity. }
  assert (H3 : isFormed s' = false /\ activePhotoId s' = activePhotoId s).
  { unfold s', step.
    destruct (render_keeps (handle (CamButton true granted) s))
      as (_ & _ & _ & _ & _ & _ & K).
    destruct K as [K1 K2]; [right; rewrite Hh; reflexivity|].
    rewrite K1, K2, Hh. split; reflexivity. }
  destruct H3 as [H3 H4]. repeat split; try assumption.
  intros ready now results. unfold step at 1. simpl handle.
  unfold gestureLogic. destruct Sy' as (T1 & T2 & T3 & T4).
  rewrite T3, H1. simpl. apply render_synced. repeat split; assumption.
Qed.

Lemma camera_button_off_witness :
  let s' := step camera_on (CamButton true false) in
  cameraActive s' = false
  /\ step s' (frame 3000 "Closed_Fist" []) = s'.
Proof.
  intros s'.
  destruct (camera_button_off [CamButton true true] false) as [H _].
  destruct H as (H1 & _ & _ & _ & H2); [reflexivity|].
  split; [exact H1 | apply H2].
Defined.

End Session.

(** ** Uploads *)

Section Uploads.

Import MediaPipe App.
Local Open Scope nat_scope.

Lemma upload_fold_cons c cs bs :
  upload_fold (c :: cs) bs = upload_fold cs (reader_onload (fst c) (snd c) bs).
Proof. reflexivity. Qed.

Lemma img_onload_eq file rnd b s :
  img_onload file rnd b s =
  if Nat.eqb (S (loadedCount b)) (length (files b))
  then (loaded file rnd b, commit (newItems (loaded file rnd b)) s)
  else (loaded file rnd b, s).
Proof. reflexivity. Qed.

Lemma completed_items_cons (fs : list File) (i : nat) (r : Q) cs :
  completed_items fs ((i, r) :: cs) =
  match fs !! i with
  | Some file =>
      if decodable file then polaroid_of file r :: completed_items fs cs
      else completed_items fs cs
  | None => completed_items fs cs
  end.
Proof.
  unfold completed_items. simpl. destruct (fs !! i) as [file|]; simpl;
    [destruct (decodable file)|]; reflexivity.
Qed.

(** As long as fewer images have loaded than files were selected, the
    callbacks only collect items: the state is not touched. *)
Lemma upload_fold_collects (cs : list (nat * Q)) (b : Batch) (s : State) :
  loadedCount b + length (completed_items (files b) cs) < length (files b) ->
  upload_fold cs (b, s) =
  ({| files := files b;
      newItems := newItems b ++ completed_items (files b) cs;
      loadedCount := loadedCount b + length (completed_items (files b) cs) |},
   s).
Proof.
  revert b. induction cs as [|[i r] cs IH]; intros b Hlt.
  - simpl. rewrite app_nil_r, Nat.add_0_r. destruct b; reflexivity.
  - rewrite upload_fold_cons. unfold reader_onload. simpl fst; simpl snd.
    rewrite completed_items_cons in Hlt |- *.
    destruct (files b !! i) as [file|] eqn:E; [|apply IH, Hlt].
    destruct (decodable file) eqn:D; [|apply IH, Hlt].
    simpl length in Hlt. rewrite img_onload_eq.
    destruct (Nat.eqb_spec (S (loadedCount b)) (length (files b))); [lia|].
    rewrite IH; simpl; [|lia].
    rewrite <- app_assoc. simpl. f_equal. f_equal. lia.
Qed.

(** Completions of distinct files push fewer items than files were
    selected as soon as one file does not decode. *)
Lemma completed_items_short (fs : list File) (cs : list (nat * Q))
  (j : nat) (bad : File) :
  NoDup cs.*1 -> fs !! j = Some bad -> decodable bad = false ->
  length (completed_items fs cs) < length fs.
Proof.
  intros Hnd Hj Hbad.
  set (good := fun i : nat => match fs !! i with
                              | Some file => decodable file
                              | None => false
                              end).
  assert (Hlen : length (completed_items fs cs)
                 = length (filter (fun i => good i = true) cs.*1)).
  { clear Hnd. induction cs as [|[i r] cs IH]; [reflexivity|].
    rewrite completed_items_cons, fmap_cons, filter_cons. simpl fst.
    assert (Hg : good i = match fs !! i with
                          | Some file => decodable file
                          | None => false
                          end) by reflexivity.
    destruct (decide (good i = true)) as [G | G]; rewrite Hg in G;
      destruct (fs !! i) as [file|]; try destruct (decodable file);
      simpl; congruence. }
  rewrite Hlen.
  apply Nat.le_lt_trans
    with (length (filter (fun i => i <> j) (seq 0 (length fs)))).
  - apply submseteq_length, NoDup_submseteq.
    + apply NoDup_filter, Hnd.
    + intros i Hi. apply list_elem_of_filter in Hi. destruct Hi as [Hg _].
      apply list_elem_of_filter. unfold good in Hg.
      destruct (fs !! i) as [file|] eqn:E; [|discriminate]. split.
      * intros ->. congruence.
      * apply elem_of_seq. apply lookup_lt_Some in E. lia.
  - replace (length fs) with (length (seq 0 (length fs))) at 2
      by apply length_seq.
    apply (length_filter_lt _ _ j).
    + apply elem_of_seq. apply lookup_lt_Some in Hj. lia.
    + intros H. apply H. reflexivity.
Qed.

(** X14. One undecodable file silences the whole batch: whatever the other
    files are and in whatever order the readers complete (each file at
    most once), [handleUpload] leaves the state as it was; no texture
    of the batch is ever added. *)
Theorem upload_with_undecodable_file (selected : list File)
  (completions : list (nat * Q)) (j : nat) (bad : File) (s : State) :
  NoDup completions.*1 ->
  selected !! j = Some bad -> decodable bad = false ->
  handleUpload selected completions s = s.
Proof.
  intros Hnd Hj Hbad. unfold handleUpload.
  destruct (Nat.ltb 0 (length selected)); [|reflexivity].
  fold (upload_fold completions
          ({| files := selected; newItems := []; loadedCount := 0 |}, s)).
  rewrite upload_fold_collects; [reflexivity|]. simpl.
  apply (completed_items_short selected completions j bad); assumption.
Qed.

(** Three valid images and a corrupt one. *)
Lemma upload_with_undecodable_file_witness :
  let d := {| getFullYear := 2025; getMonth := 4 |} in
  let ok := {| lastModified := d; result := "data:image/png"; decodable := true |} in
  let bad := {| lastModified := d; result := "data:garbage"; decodable := false |} in
  let r := (1 # 2)%Q in
  userTextures
    (handleUpload [ok; ok; bad; ok] [(1, r); (3, r); (0, r); (2, r)] initial)
  = [].
Proof.
  intros d ok bad r.
  rewrite (upload_with_undecodable_file [ok; ok; bad; ok]
             [(1, r); (3, r); (0, r); (2, r)] 2 bad initial).
  - reflexivity.
  - apply (bool_decide_unpack _). reflexivity.
  - reflexivity.
  - reflexivity.
Defined.

Lemma completed_items_app (fs : list File) (cs1 cs2 : list (nat * Q)) :
  completed_items fs (cs1 ++ cs2)
  = completed_items fs cs1 ++ completed_items fs cs2.
Proof. apply omap_app. Qed.

Lemma completed_items_all (fs : list File) (cs : list (nat * Q)) :
  Forall (fun file => decodable file = true) fs ->
  Forall (fun c => fst c < length fs) cs ->
  length (completed_items fs cs) = length cs.
Proof.
  intros Hdec Hcs. induction Hcs as [|[i r] cs Hi _ IH]; [reflexivity|].
  rewrite completed_items_cons. simpl in Hi.
  destruct (lookup_lt_is_Some_2 fs i Hi) as [file E]. rewrite E.
  rewrite (proj1 (Forall_lookup _ fs) Hdec i file E). simpl. congruence.
Qed.

(** X15. When every selected file decodes and every reader completes once,
    the last [img.onload] appends the whole batch to the textures, one
    item per file in completion order, and flips [sceneReady]; the mode
    and the selection are not touched. *)
Theorem upload_all_decodable (selected : list File)
  (completions : list (nat * Q)) (s : State) :
  let s' := handleUpload selected completions s in
  selected <> [] ->
  completions.*1 ≡ₚ seq 0 (length selected) ->
  Forall (fun file => decodable file = true) selected ->
  userTextures s' = userTextures s ++ completed_items selected completions
  /\ length (completed_items selected completions) = length selected
  /\ sceneReady s' = negb (sceneReady s)
  /\ isFormed s' = isFormed s /\ activeMonth s' = activeMonth s
  /\ activePhotoId s' = activePhotoId s.
Proof.
  intros s' Hne Hperm Hdec.
  assert (Hlen : length completions = length selected).
  { rewrite <- (length_fmap fst completions), Hperm. apply length_seq. }
  assert (Hin : Forall (fun c => fst c < length selected) completions).
  { apply Forall_forall. intros c Hc.
    assert (H : fst c ∈ seq 0 (length selected)).
    { rewrite <- Hperm. apply list_elem_of_fmap. exists c. split; [reflexivity|].
      exact Hc. }
    apply elem_of_seq in H. lia. }
  assert (Hall : length (completed_items selected completions)
                 = length selected).
  { rewrite completed_items_all; assumption. }
  destruct completions as [|c0 cs0] using rev_ind.
  { destruct selected; [contradiction | discriminate Hlen]. }
  destruct c0 as [i r].
  apply Forall_app in Hin. destruct Hin as [Hin Hi].
  inversion Hi as [|? ? Hi' _]; subst. simpl in Hi'.
  rewrite length_app in Hlen. simpl in Hlen.
  pose proof (completed_items_all selected cs0 Hdec Hin) as Hlen0.
  destruct (lookup_lt_is_Some_2 selected i Hi') as [file E].
  pose proof (proj1 (Forall_lookup _ selected) Hdec i file E) as D.
  simpl in D.
  assert (Hs' : s' = commit (completed_items selected cs0
                             ++ [polaroid_of file r]) s).
  { unfold s', handleUpload.
    destruct (Nat.ltb_spec 0 (length selected)); [|lia].
    rewrite fold_left_app.
    fold (upload_fold cs0
            ({| files := selected; newItems := []; loadedCount := 0 |}, s)).
    rewrite upload_fold_collects; [|simpl; lia]. simpl fold_left.
    unfold reader_onload. simpl files. rewrite E, D, img_onload_eq.
    simpl loadedCount. simpl files.
    destruct (Nat.eqb_spec (S (length (completed_items selected cs0)))
                           (length selected)); [reflexivity | lia]. }
  clear IHcs0.
  rewrite completed_items_app, (completed_items_cons selected i r []), E, D
    in Hall |- *.
  split; [rewrite Hs'; reflexivity|].
  split; [exact Hall|].
  rewrite Hs'. simpl. auto.
Qed.

Lemma upload_all_decodable_witness :
  let file m := {| lastModified := {| getFullYear := 2025; getMonth := m |};
                   result := "data:image/png"; decodable := true |} in
  let s' := handleUpload [file 0%Z; file 6%Z; file 11%Z]
              [(2, (1 # 2)%Q); (0, 0%Q); (1, (9 # 10)%Q)] initial in
  length (userTextures s') = 3 /\ sceneReady s' = true.
Proof.
  intros file s'.
  destruct (upload_all_decodable [file 0%Z; file 6%Z; file 11%Z]
              [(2, (1 # 2)%Q); (0, 0%Q); (1, (9 # 10)%Q)] initial)
    as (H1 & H2 & H3 & _).
  - discriminate.
  - apply (bool_decide_unpack _). reflexivity.
  - repeat constructor.
  - fold s' in H1, H3. rewrite H1, H3. rewrite length_app, H2.
    split; reflexivity.
Defined.

End Uploads.

(** ** The progress uniform *)

Section ProgressController.

Import Progress.
Local Open Scope R_scope.

Lemma update_eq (isFormed : bool) (delta p : R) :
  update isFormed delta p
  = targetP isFormed + (p - targetP isFormed) * exp (- 3 * delta).
Proof. unfold update, lerp. ring. Qed.

(** The decay factor of one frame lies in (0, 1]. *)
Lemma decay_range (delta : R) : 0 <= delta -> 0 < exp (- 3 * delta) <= 1.
Proof.
  intros Hd. split; [apply exp_pos|].
  destruct Hd as [Hd | <-].
  - left. rewrite <- exp_0. apply exp_increasing. lra.
  - right. replace (- 3 * 0) with 0 by ring. apply exp_0.
Qed.

Lemma frames_eq (n : nat) (isFormed : bool) (delta p : R) :
  frames n isFormed delta p
  = targetP isFormed + (p - targetP isFormed) * exp (- 3 * delta) ^ n.
Proof.
  induction n as [|n IH]; simpl.
  - ring.
  - rewrite update_eq, IH. ring.
Qed.

(** X16. One frame replaces the progress by
    [progress + (target - progress) * (1 - exp(-3 delta))]; for a
    progress in [0,1] and [delta >= 0] the new value stays in [0,1],
    lies between the old value and the target, and is no farther from
    the target than before. *)
Theorem progress_update_bounds (isFormed : bool) (delta p : R) :
  let t := targetP isFormed in
  let p' := update isFormed delta p in
  0 <= delta -> 0 <= p <= 1 ->
  p' = p + (t - p) * (1 - exp (- 3 * delta))
  /\ 0 <= p' <= 1
  /\ (p <= p' <= t \/ t <= p' <= p)
  /\ Rabs (t - p') <= Rabs (t - p).
Proof.
  intros t p' Hd Hp.
  pose proof (decay_range delta Hd) as [Hq0 Hq1].
  assert (Ht : t = 0 \/ t = 1).
  { unfold t, targetP. destruct isFormed; auto. }
  assert (Hp' : p' = t + (p - t) * exp (- 3 * delta)) by apply update_eq.
  set (q := exp (- 3 * delta)) in *.
  split; [rewrite Hp'; ring|].
  assert (Hbetween : p <= p' <= t \/ t <= p' <= p).
  { destruct Ht as [Ht | Ht]; rewrite Ht in *.
    - right. rewrite Hp'. split; nra.
    - left. rewrite Hp'. split; nra. }
  split; [destruct Ht as [Ht | Ht]; rewrite Ht in *; lra|].
  split; [exact Hbetween|].
  destruct Hbetween as [[H1 H2] | [H1 H2]].
  - rewrite !Rabs_right by lra. lra.
  - rewrite !Rabs_left1 by lra. lra.
Qed.

Lemma progress_update_bounds_witness :
  0 <= update true 1 0 <= 1.
Proof.
  apply (progress_update_bounds true 1 0); lra.
Defined.




(** A stalled clock stalls the progress: with [delta = 0] no number of
    frames moves it, so a progress away from the target stays away. *)
Theorem progress_stalls_at_zero_delta (isFormed : bool) (p : R) (n : nat) :
  frames n isFormed 0 p = p.
Proof.
  rewrite frames_eq. replace (- 3 * 0) with 0 by ring.
  rewrite exp_0, pow1. ring.
Qed.

End ProgressController.

(** ** The text layout *)

Section TextLayout.

Import Layout.
Local Open Scope Q_scope.

Lemma strides_range (stop step v : Z) :
  (0 < step)%Z -> v ∈ strides stop step ->
  (0 <= v < stop)%Z /\ (v mod step = 0)%Z.
Proof.
  intros Hs Hv. unfold strides in Hv.
  apply list_elem_of_fmap in Hv. destruct Hv as (k & -> & Hk).
  apply elem_of_seqZ in Hk.
  pose proof (Z.mul_div_le (stop + step - 1) step Hs).
  split; [nia|]. apply Z.mod_mul. lia.
Qed.

Lemma sample_footprint (data : ImageData) (py px : Z) (p : Vector3) :
  (0 <= px < width)%Z -> (0 <= py < height)%Z ->
  In p (sample data py px) ->
  footprint p /\ (data ((py * width + px) * 4) > 100)%Z.
Proof.
  intros Hx Hy Hp. unfold sample in Hp.
  destruct (Z.gtb_spec (data ((py * width + px) * 4)%Z) 100) as [Hd | Hd];
    [|destruct Hp].
  destruct Hp as [<- | []]. split; [|lia].
  unfold footprint, width, height in *. simpl.
  unfold Qdiv. change (/ inject_Z 1024) with (1 # 1024).
  change (/ inject_Z 512) with (1 # 512).
  assert (0 <= inject_Z px <= 1024 # 1).
  { change 0 with (inject_Z 0). change (1024 # 1) with (inject_Z 1024).
    rewrite <- !Zle_Qle. lia. }
  assert (0 <= inject_Z py <= 512 # 1).
  { change 0 with (inject_Z 0). change (512 # 1) with (inject_Z 512).
    rewrite <- !Zle_Qle. lia. }
  repeat split; lra.
Qed.

(** The point the scan pushes for the pixel [(px, py)]. *)
Lemma sample_bright (data : ImageData) (py px : Z) :
  (data ((py * width + px) * 4) > 100)%Z ->
  sample data py px
  = [ {| x := (inject_Z px / inject_Z width - (1 # 2)) * 75;
         y := - (inject_Z py / inject_Z height - (1 # 2)) * 35;
         z := 0 |} ].
Proof.
  intros Hd. unfold sample.
  destruct (Z.gtb_spec (data ((py * width + px) * 4)%Z) 100); [reflexivity|lia].
Qed.

Lemma strides_elem (stop step v : Z) :
  (0 < step)%Z -> (0 <= v < stop)%Z -> (v mod step = 0)%Z ->
  v ∈ strides stop step.
Proof.
  intros Hs Hv Hm. unfold strides. apply list_elem_of_fmap.
  exists (v / step)%Z.
  assert (Hv' : v = (v / step * step)%Z).
  { rewrite (Z.div_mod v step) at 1 by lia. rewrite Hm. lia. }
  split; [exact Hv'|]. apply elem_of_seqZ.
  split; [apply Z.div_pos; lia|]. simpl.
  apply Z.div_lt_upper_bound; [lia|].
  pose proof (Z.mul_div_le (stop + step - 1) step Hs).
  pose proof (Z.mod_pos_bound (stop + step - 1) step Hs).
  pose proof (Z.div_mod (stop + step - 1) step). lia.
Qed.

Lemma scan_sound (data : ImageData) (p : Vector3) :
  In p (scan data) ->
  footprint p
  /\ exists px py : Z,
       (0 <= px < width)%Z /\ (px mod step = 0)%Z
       /\ (0 <= py < height)%Z /\ (py mod step = 0)%Z
       /\ (data ((py * width + px) * 4) > 100)%Z
       /\ p = {| x := (inject_Z px / inject_Z width - (1 # 2)) * 75;
                 y := - (inject_Z py / inject_Z height - (1 # 2)) * 35;
                 z := 0 |}.
Proof.
  unfold scan. intros Hp. apply in_flat_map in Hp.
  destruct Hp as (py & Hy & Hp). apply in_flat_map in Hp.
  destruct Hp as (px & Hx & Hp).
  apply list_elem_of_In in Hx, Hy.
  destruct (strides_range width step px) as [Hx1 Hx2]; [reflexivity|exact Hx|].
  destruct (strides_range height step py) as [Hy1 Hy2]; [reflexivity|exact Hy|].
  destruct (sample_footprint data py px p Hx1 Hy1 Hp) as [Hf Hd].
  split; [exact Hf|]. exists px, py. repeat split; try lia.
  rewrite sample_bright in Hp by exact Hd. destruct Hp as [<- | []].
  reflexivity.
Qed.

(** X19. The scan collects a point for exactly the pixels of the 4-pixel
    grid whose red byte exceeds 100, mapped linearly with a vertical
    flip; every collected point lies in the design footprint. *)
Theorem scan_collects_bright_pixels (data : ImageData) (p : Vector3) :
  (In p (scan data) <->
   exists px py : Z,
     (0 <= px < width)%Z /\ (px mod step = 0)%Z
     /\ (0 <= py < height)%Z /\ (py mod step = 0)%Z
     /\ (data ((py * width + px) * 4) > 100)%Z
     /\ p = {| x := (inject_Z px / inject_Z width - (1 # 2)) * 75;
               y := - (inject_Z py / inject_Z height - (1 # 2)) * 35;
               z := 0 |})
  /\ (In p (scan data) -> footprint p).
Proof.
  split; [split|].
  - intros Hp. apply (scan_sound data p Hp).
  - intros (px & py & Hx & Hxm & Hy & Hym & Hd & ->).
    unfold scan. apply in_flat_map. exists py. split.
    + apply list_elem_of_In, strides_elem; [reflexivity | exact Hy | exact Hym].
    + apply in_flat_map. exists px. split.
      * apply list_elem_of_In, strides_elem;
          [reflexivity | exact Hx | exact Hxm].
      * rewrite sample_bright by exact Hd. left. reflexivity.
  - intros Hp. apply (scan_sound data p Hp).
Qed.

(** One bright pixel in the middle of the canvas. *)
Lemma scan_collects_bright_pixels_witness :
  let data := fun i : Z =>
    if (i =? (256 * 1024 + 512) * 4)%Z then 255%Z else 0%Z in
  In {| x := (inject_Z 512 / inject_Z width - (1 # 2)) * 75;
        y := - (inject_Z 256 / inject_Z height - (1 # 2)) * 35;
        z := 0 |} (scan data)
  /\ footprint {| x := (inject_Z 512 / inject_Z width - (1 # 2)) * 75;
                  y := - (inject_Z 256 / inject_Z height - (1 # 2)) * 35;
                  z := 0 |}.
Proof.
  intros data.
  destruct (scan_collects_bright_pixels data
              {| x := (inject_Z 512 / inject_Z width - (1 # 2)) * 75;
                 y := - (inject_Z 256 / inject_Z height - (1 # 2)) * 35;
                 z := 0 |}) as [[_ H1] H2].
  assert (Hin : In {| x := (inject_Z 512 / inject_Z width - (1 # 2)) * 75;
                      y := - (inject_Z 256 / inject_Z height - (1 # 2)) * 35;
                      z := 0 |} (scan data)).
  { apply H1. exists 512%Z, 256%Z.
    repeat split; try reflexivity; try discriminate. }
  split; [exact Hin | exact (H2 Hin)].
Defined.

(** Swapping two entries permutes the list. *)
Lemma swap_Permutation (i j : nat) (points : list Vector3) :
  swap i j points ≡ₚ points.
Proof.
  unfold swap.
  destruct (points !! i) as [pi|] eqn:Ei; [|reflexivity].
  destruct (points !! j) as [pj|] eqn:Ej; [|reflexivity].
  pose proof (lookup_lt_Some _ _ _ Ei) as Hi.
  pose proof (lookup_lt_Some _ _ _ Ej) as Hj.
  apply Permutation_inj. split; [rewrite !length_insert; reflexivity|].
  exists (fun n => if decide (n = i) then j else if decide (n = j) then i else n).
  split.
  - intros a b. repeat case_decide; subst; congruence.
  - intros n. rewrite !list_lookup_insert, !length_insert.
    repeat case_decide; subst; try lia; try congruence;
      repeat match goal with
             | H : _ /\ _ |- _ => destruct H; subst
             | H : ~ (_ /\ _) |- _ => apply not_and_l in H; destruct H
             end;
      try lia; try congruence.
Qed.

Lemma shuffle_from_spec (rnd : nat -> Q) (i : nat) (points : list Vector3)
  (k : nat) :
  fst (shuffle_from rnd i points k) ≡ₚ points
  /\ snd (shuffle_from rnd i points k) = (k + i)%nat.
Proof.
  revert points k. induction i as [|i IH]; intros points k; simpl.
  - split; [reflexivity | lia].
  - unfold bind, random_below, Math_random, ret. simpl.
    match goal with |- context [shuffle_from rnd i ?l ?k'] =>
      destruct (IH l k') as [H1 H2] end.
    split.
    + rewrite H1. apply swap_Permutation.
    + rewrite H2. lia.
Qed.

Lemma shuffle_spec (rnd : nat -> Q) (points : list Vector3) (k : nat) :
  fst (shuffle rnd points k) ≡ₚ points
  /\ length (fst (shuffle rnd points k)) = length points
  /\ snd (shuffle rnd points k) = (k + (length points - 1))%nat.
Proof.
  unfold shuffle.
  destruct (shuffle_from_spec rnd (length points - 1) points k) as [H1 H2].
  split; [exact H1|]. split; [rewrite H1; reflexivity | exact H2].
Qed.

(** X20. The shuffle permutes the points, whatever the random numbers are:
    no point is lost or duplicated and the length is kept; it draws one
    random number per point but the first. *)
Theorem shuffle_is_permutation (rnd : nat -> Q) (points : list Vector3)
  (k : nat) :
  fst (shuffle rnd points k) ≡ₚ points
  /\ length (fst (shuffle rnd points k)) = length points
  /\ (forall p, In p (fst (shuffle rnd points k)) <-> In p points)
  /\ snd (shuffle rnd points k) = (k + (length points - 1))%nat.
Proof.
  destruct (shuffle_spec rnd points k) as (H1 & H2 & H3).
  split; [exact H1|]. split; [exact H2|]. split; [|exact H3].
  intros p. rewrite <- !list_elem_of_In, H1. reflexivity.
Qed.

Lemma jitter_range (rnd : nat -> Q) (k : nat) :
  unit_random rnd ->
  - (1 # 20) <= fst (jitter rnd k) <= 1 # 20 /\ snd (jitter rnd k) = S k.
Proof.
  intros Hr. unfold jitter, bind, Math_random, ret. simpl.
  destruct (Hr k). split; [split; lra | reflexivity].
Qed.

Lemma jittered_spec (rnd : nat -> Q) (points : list Vector3) (i k : nat) :
  unit_random rnd ->
  jitter_of (points !!! (i mod length points)%nat)
            (fst (jittered rnd points i k))
  /\ snd (jittered rnd points i k) = (k + 3)%nat.
Proof.
  intros Hr. unfold jittered, bind, ret.
  destruct (jitter rnd k) as [jx k1] eqn:E1.
  destruct (jitter rnd k1) as [jy k2] eqn:E2.
  destruct (jitter rnd k2) as [jz k3] eqn:E3.
  pose proof (jitter_range rnd k Hr) as [A1 B1]. rewrite E1 in A1, B1.
  pose proof (jitter_range rnd k1 Hr) as [A2 B2]. rewrite E2 in A2, B2.
  pose proof (jitter_range rnd k2 Hr) as [A3 B3]. rewrite E3 in A3, B3.
  simpl in *. subst. split; [|lia].
  unfold jitter_of. simpl. repeat split; lra.
Qed.

Lemma fill_S (rnd : nat -> Q) (points : list Vector3) (n i k : nat) :
  fill rnd (S n) i points k =
  let (p, k1) := jittered rnd points i k in
  let (rest, k2) := fill rnd n (S i) points k1 in
  (p :: rest, k2).
Proof. reflexivity. Qed.

Lemma fill_spec (rnd : nat -> Q) (points : list Vector3) (n i k : nat) :
  unit_random rnd ->
  length (fst (fill rnd n i points k)) = n
  /\ snd (fill rnd n i points k) = (k + 3 * n)%nat
  /\ forall m, (m < n)%nat ->
       exists p, fst (fill rnd n i points k) !! m = Some p
                 /\ jitter_of (points !!! ((i + m) mod length points)%nat) p.
Proof.
  intros Hr. revert i k. induction n as [|n IH]; intros i k.
  - simpl. split; [reflexivity|]. split; [lia|]. intros m Hm. lia.
  - rewrite fill_S.
    destruct (jittered rnd points i k) as [p k1] eqn:E.
    pose proof (jittered_spec rnd points i k Hr) as [J1 J2].
    rewrite E in J1, J2. simpl in J1, J2.
    destruct (IH (S i) k1) as (L & K & M).
    destruct (fill rnd n (S i) points k1) as [rest k2].
    simpl in L, K, M. simpl fst. simpl snd.
    split; [simpl; lia|]. split; [lia|].
    intros [|m] Hm.
    + exists p. rewrite Nat.add_0_r. auto.
    + destruct (M m) as (p' & Hp' & Jp'); [lia|].
      exists p'. split; [exact Hp'|].
      replace (i + S m)%nat with (S i + m)%nat by lia. exact Jp'.
Qed.

Lemma jitter_in_bounds (q p : Vector3) :
  footprint q -> jitter_of q p -> in_bounds p.
Proof.
  unfold footprint, jitter_of, in_bounds.
  intros (Hx & Hy & _) (Jx & Jy & Jz). repeat split; lra.
Qed.

Lemma lookup_total_mod_elem (points : list Vector3) (i : nat) :
  points <> [] -> points !!! (i mod length points)%nat ∈ points.
Proof.
  intros Hne. apply list_elem_of_lookup_total_2.
  apply Nat.mod_upper_bound. destruct points; [contradiction | discriminate].
Qed.

Lemma generateTextLayout_run (rnd : nat -> Q) (ctx : Context2D)
  (text : string) (count k : nat) :
  let points := scan (ctx (split_join hair_space text)) in
  let shuffled := fst (shuffle rnd points k) in
  generateTextLayout rnd (Some ctx) text count k =
  if Nat.eqb (length shuffled) 0
  then (replicate count origin, snd (shuffle rnd points k))
  else fill rnd count 0 shuffled (snd (shuffle rnd points k)).
Proof.
  intros points shuffled. unfold generateTextLayout, bind. fold points.
  unfold shuffled. destruct (shuffle rnd points k) as [sh k']. simpl.
  destruct (Nat.eqb (length sh) 0); reflexivity.
Qed.

(** X21. For every text and count, with a 2D context at hand, the generator
    returns exactly [count] points, all inside the 75 by 35 footprint
    widened by 0.05; when the scan finds no bright pixel they are
    [count] copies of the origin and no random number is drawn;
    otherwise each of them is a scanned point moved by at most 0.05
    per axis, and [len - 1 + 3 * count] random numbers are drawn. *)
Theorem generateTextLayout_points (rnd : nat -> Q) (ctx : Context2D)
  (text : string) (count k : nat) :
  let points := scan (ctx (split_join hair_space text)) in
  let result := generateTextLayout rnd (Some ctx) text count k in
  unit_random rnd ->
  length (fst result) = count
  /\ Forall in_bounds (fst result)
  /\ (points = [] -> result = (replicate count origin, k))
  /\ (points <> [] ->
      Forall (fun p => exists q, In q points /\ jitter_of q p) (fst result)
      /\ snd result = (k + (length points - 1) + 3 * count)%nat).
Proof.
  intros points result Hr.
  destruct (shuffle_spec rnd points k) as (Hperm & Hlen & Hk).
  unfold result. rewrite generateTextLayout_run. fold points.
  set (shuffled := fst (shuffle rnd points k)) in *.
  destruct (Nat.eqb_spec (length shuffled) 0) as [Hz | Hnz].
  - assert (Hnil : points = []).
    { destruct points; [reflexivity|]. simpl in Hlen. lia. }
    simpl fst. split; [apply length_replicate|].
    split.
    { apply Forall_forall. intros p Hp. apply elem_of_replicate in Hp.
      destruct Hp as [-> _]. unfold in_bounds, origin. simpl.
      repeat split; discriminate. }
    split; [|intros Hne; contradiction].
    intros _. rewrite Hk, Hnil. simpl. f_equal. lia.
  - assert (Hne : points <> []).
    { intros Hnil. rewrite Hnil in Hlen. simpl in Hlen. lia. }
    assert (Hsh : shuffled <> []).
    { intros Hnil. rewrite Hnil in Hnz. simpl in Hnz. lia. }
    destruct (fill_spec rnd shuffled count 0 (snd (shuffle rnd points k)) Hr)
      as (L & K & M).
    assert (Hjit : Forall (fun p => exists q, In q points /\ jitter_of q p)
                     (fst (fill rnd count 0 shuffled
                             (snd (shuffle rnd points k))))).
    { apply Forall_lookup. intros m p Hm.
      pose proof (lookup_lt_Some _ _ _ Hm) as Hlt. rewrite L in Hlt.
      destruct (M m Hlt) as (p' & Hp' & Jp'). rewrite Hm in Hp'.
      inversion Hp'; subst p'.
      exists (shuffled !!! ((0 + m) mod length shuffled)%nat).
      split; [|exact Jp'].
      apply list_elem_of_In. rewrite <- Hperm.
      apply lookup_total_mod_elem, Hsh. }
    split; [exact L|]. split.
    { eapply Forall_impl; [exact Hjit|]. intros p (q & Hq & Jq).
      apply (jitter_in_bounds q p); [|exact Jq].
      apply (scan_sound _ q Hq). }
    split; [intros Hnil; contradiction|].
    intros _. split; [exact Hjit|]. rewrite K, Hk. lia.
Qed.

Lemma generateTextLayout_points_witness :
  let data := fun i : Z =>
    if ((i =? (256 * 1024 + 512) * 4) || (i =? 0)
        || (i =? (508 * 1024 + 1020) * 4))%Z then 255%Z else 0%Z in
  let rnd := fun n : nat => (Z.of_nat (n mod 7) # 7) in
  let result := generateTextLayout rnd (Some (fun _ => data)) "2025" 5%nat 0%nat in
  length (fst result) = 5%nat /\ Forall in_bounds (fst result).
Proof.
  intros data rnd result.
  destruct (generateTextLayout_points rnd (fun _ => data) "2025" 5%nat 0%nat)
    as (H1 & H2 & _).
  - intros n. unfold rnd. split.
    + unfold Qle. simpl. lia.
    + unfold Qlt. simpl. pose proof (Nat.mod_upper_bound n 7). lia.
  - split; [exact H1 | exact H2].
Defined.

(** X22. With at least as many points requested as the scan found, every
    scanned point is represented: some returned point lies within 0.05
    of it on each axis. *)
Theorem generateTextLayout_covers (rnd : nat -> Q) (ctx : Context2D)
  (text : string) (count k : nat) (q : Vector3) :
  let points := scan (ctx (split_join hair_space text)) in
  let result := generateTextLayout rnd (Some ctx) text count k in
  unit_random rnd ->
  (length points <= count)%nat ->
  In q points ->
  exists p, In p (fst result) /\ jitter_of q p.
Proof.
  intros points result Hr Hcount Hq.
  destruct (shuffle_spec rnd points k) as (Hperm & Hlen & Hk).
  unfold result. rewrite generateTextLayout_run. fold points.
  set (shuffled := fst (shuffle rnd points k)) in *.
  assert (Hqs : q ∈ shuffled).
  { rewrite Hperm. apply list_elem_of_In, Hq. }
  apply list_elem_of_lookup in Hqs. destruct Hqs as [m Hm].
  pose proof (lookup_lt_Some _ _ _ Hm) as Hlt.
  destruct (Nat.eqb_spec (length shuffled) 0) as [Hz | Hnz]; [lia|].
  destruct (fill_spec rnd shuffled count 0 (snd (shuffle rnd points k)) Hr)
    as (L & K & M).
  destruct (M m) as (p & Hp & Jp); [lia|].
  exists p. split.
  - apply list_elem_of_In. eapply list_elem_of_lookup_2, Hp.
  - simpl in Jp. rewrite Nat.mod_small in Jp by exact Hlt.
    rewrite (list_lookup_total_correct _ _ _ Hm) in Jp. exact Jp.
Qed.

Lemma generateTextLayout_covers_witness :
  let data := fun i : Z =>
    if ((i =? (256 * 1024 + 512) * 4) || (i =? 0)
        || (i =? (508 * 1024 + 1020) * 4))%Z then 255%Z else 0%Z in
  let rnd := fun n : nat => (Z.of_nat (n mod 7) # 7) in
  let result := generateTextLayout rnd (Some (fun _ => data)) "2025" 5%nat 0%nat in
  exists p, In p (fst result)
            /\ jitter_of {| x := 0 # 2048; y := 0 # 1024; z := 0 |} p.
Proof.
  intros data rnd result.
  apply (generateTextLayout_covers rnd (fun _ => data) "2025" 5%nat 0%nat).
  - intros n. unfold rnd. split.
    + unfold Qle. simpl. lia.
    + unfold Qlt. simpl. pose proof (Nat.mod_upper_bound n 7). lia.
  - vm_compute. lia.
  - vm_compute. right. left. reflexivity.
Defined.

(** Without a 2D context the generator returns no point at all and
    draws no random number. *)
Lemma generateTextLayout_no_context (rnd : nat -> Q) (text : string)
  (count k : nat) :
  generateTextLayout rnd None text count k = ([], k).
Proof. reflexivity. Qed.

End TextLayout.

(** ** Merging buffer geometries *)

Section Merging.

Import Geometry.
Local Open Scope nat_scope.

Lemma count_fold (gs : list BufferGeometry) (v i : nat) :
  fold_left count_step gs (v, i) = (v + vertex_total gs, i + index_total gs).
Proof.
  revert v i. induction gs as [|g gs IH]; intros v i.
  - unfold vertex_total, index_total. simpl. f_equal; lia.
  - simpl fold_left. rewrite IH.
    unfold vertex_total, index_total. simpl.
    destruct (index g) as [ix|]; f_equal; lia.
Qed.

(** Writing a source at the end of the filled part of a zero-filled
    array. *)
Lemma set_at_fill (pre src : list Q) (room : nat) :
  length src <= room ->
  Geometry.set (pre ++ replicate room 0%Q) src (length pre)
  = Some (pre ++ src ++ replicate (room - length src) 0%Q).
Proof.
  intros Hfit. unfold Geometry.set.
  rewrite length_app, length_replicate.
  destruct (Nat.leb_spec (length pre + length src) (length pre + room));
    [|lia].
  f_equal. rewrite take_app_length. f_equal. f_equal.
  rewrite drop_app_ge by lia.
  replace (length pre + length src - length pre) with (length src) by lia.
  rewrite drop_replicate. reflexivity.
Qed.

Lemma set_if_fill (pre : list Q) (a : option BufferAttribute) (n room : nat) :
  fits n a -> n <= room ->
  set_if (pre ++ replicate room 0%Q) a (length pre)
  = Some (pre ++ padded n a ++ replicate (room - n) 0%Q).
Proof.
  intros Hfit Hn. unfold set_if, padded. destruct a as [a|]; simpl in Hfit.
  - rewrite set_at_fill by lia. f_equal. f_equal.
    rewrite <- app_assoc. f_equal. rewrite <- replicate_add. f_equal. lia.
  - f_equal. f_equal. rewrite <- replicate_add. f_equal. lia.
Qed.

Lemma write_indices_fill (ix : Index) (v : nat) (pre done : list Z)
  (room : nat) :
  length ix <= room ->
  write_indices ix (length done) v (length pre)
    (pre ++ done ++ replicate room 0%Z)
  = pre ++ done ++ map (fun xi => ToUint32 (xi + Z.of_nat v)) ix
        ++ replicate (room - length ix) 0%Z.
Proof.
  revert done room. induction ix as [|xi ix IH]; intros done room Hfit.
  - simpl. rewrite Nat.sub_0_r. reflexivity.
  - simpl in Hfit. destruct room as [|room]; [lia|].
    unfold write_indices; fold write_indices.
    assert (E : <[length pre + length done := ToUint32 (xi + Z.of_nat v)]>
                  (pre ++ done ++ replicate (S room) 0%Z)
                = pre ++ (done ++ [ToUint32 (xi + Z.of_nat v)])
                      ++ replicate room 0%Z).
    { rewrite insert_app_r_alt by lia.
      replace (length pre + length done - length pre) with (length done)
        by lia.
      rewrite insert_app_r_alt by lia. rewrite Nat.sub_diag. simpl.
      rewrite <- app_assoc. reflexivity. }
    rewrite E.
    replace (S (length done))
      with (length (done ++ [ToUint32 (xi + Z.of_nat v)]))
      by (rewrite length_app; simpl; lia).
    rewrite IH by lia. rewrite <- !app_assoc. simpl. reflexivity.
Qed.

Lemma set_step (pre src : list Q) (off rest : nat) :
  off = length pre ->
  Geometry.set (pre ++ replicate (length src + rest) 0%Q) src off
  = Some ((pre ++ src) ++ replicate rest 0%Q).
Proof.
  intros ->. rewrite set_at_fill by lia. rewrite <- app_assoc.
  repeat f_equal. lia.
Qed.

Lemma set_if_step (pre : list Q) (a : option BufferAttribute)
  (off n rest : nat) :
  off = length pre -> fits n a ->
  set_if (pre ++ replicate (n + rest) 0%Q) a off
  = Some ((pre ++ padded n a) ++ replicate rest 0%Q).
Proof.
  intros -> Hfit. rewrite (set_if_fill pre a n) by (auto; lia).
  rewrite <- app_assoc. repeat f_equal. lia.
Qed.

Lemma vertex_total_cons g gs :
  vertex_total (g :: gs) = count (position g) + vertex_total gs.
Proof. reflexivity. Qed.

Lemma index_total_cons g gs :
  index_total (g :: gs)
  = match index g with Some ix => length ix | None => 0 end + index_total gs.
Proof. reflexivity. Qed.

Lemma merge_step_eq (b : Buffers) (g : BufferGeometry) (pa na ua ca : list Q) :
  Geometry.set (positionArray b) (array (position g)) (vOffset b * 3) = Some pa ->
  set_if (normalArray b) (normal g) (vOffset b * 3) = Some na ->
  set_if (uvArray b) (uv g) (vOffset b * 2) = Some ua ->
  set_if (colorArray b) (color g) (vOffset b * 3) = Some ca ->
  merge_step b g =
  Some {| positionArray := pa; normalArray := na; uvArray := ua;
          colorArray := ca; indexArray := fst (index_step b g);
          vOffset := vOffset b + count (position g);
          iOffset := snd (index_step b g) |}.
Proof.
  intros E1 E2 E3 E4. unfold merge_step, index_step.
  rewrite E1, E2, E3, E4. cbn [mbind option_bind].
  destruct (index g), (indexArray b); reflexivity.
Qed.

Lemma merge_loop_cons (b : Buffers) (g : BufferGeometry) rest :
  merge_loop b (g :: rest) =
  match merge_step b g with
  | Some b' => merge_loop b' rest
  | None => None
  end.
Proof. reflexivity. Qed.

Lemma padded_length (n : nat) (a : option BufferAttribute) :
  fits n a -> length (padded n a) = n.
Proof.
  destruct a as [a|]; unfold fits, padded; intros Hf;
    [rewrite length_app|]; rewrite length_replicate; lia.
Qed.

(** The second loop fills the zero-filled buffers from left to right. *)
Lemma merge_loop_fill (todo : list BufferGeometry) (b : Buffers)
  (P N U C : list Q) (I : list Z) :
  Forall well_formed todo ->
  length P = 3 * vOffset b -> length N = 3 * vOffset b ->
  length U = 2 * vOffset b -> length C = 3 * vOffset b ->
  positionArray b = P ++ replicate (3 * vertex_total todo) 0%Q ->
  normalArray b = N ++ replicate (3 * vertex_total todo) 0%Q ->
  uvArray b = U ++ replicate (2 * vertex_total todo) 0%Q ->
  colorArray b = C ++ replicate (3 * vertex_total todo) 0%Q ->
  (indexArray b = None
   \/ indexArray b = Some (I ++ replicate (index_total todo) 0%Z)
      /\ length I = iOffset b) ->
  exists b',
    merge_loop b todo = Some b'
    /\ positionArray b' = P ++ concat (map (fun g => array (position g)) todo)
    /\ normalArray b'
       = N ++ concat (map (fun g => padded (3 * count (position g)) (normal g))
                          todo)
    /\ uvArray b'
       = U ++ concat (map (fun g => padded (2 * count (position g)) (uv g))
                          todo)
    /\ colorArray b'
       = C ++ concat (map (fun g => padded (3 * count (position g)) (color g))
                          todo)
    /\ (indexArray b = None -> indexArray b' = None)
    /\ (indexArray b <> None ->
        indexArray b' = Some (I ++ shifted_indices (vOffset b) todo)).
Proof.
  intros Hwf. revert b P N U C I.
  induction Hwf as [|g todo Hg _ IH]; intros b P N U C I HP HN HU HC EP EN EU EC EI.
  - exists b. unfold vertex_total, index_total in *. simpl in *.
    rewrite !app_nil_r in *.
    repeat split; try assumption; try reflexivity; [tauto|].
    intros Hne. destruct EI as [EI | [EI _]]; [contradiction|].
    rewrite EI. reflexivity.
  - destruct Hg as (Hsize & Hlen & Hn & Hu & Hc).
    rewrite vertex_total_cons in EP, EN, EU, EC.
    rewrite index_total_cons in EI.
    set (c := count (position g)) in *.
    assert (S1 : Geometry.set (positionArray b) (array (position g))
                   (vOffset b * 3)
                 = Some ((P ++ array (position g))
                         ++ replicate (3 * vertex_total todo) 0%Q)).
    { rewrite EP. replace (3 * (c + vertex_total todo))
        with (length (array (position g)) + 3 * vertex_total todo) by lia.
      apply set_step. lia. }
    assert (S2 : set_if (normalArray b) (normal g) (vOffset b * 3)
                 = Some ((N ++ padded (3 * c) (normal g))
                         ++ replicate (3 * vertex_total todo) 0%Q)).
    { rewrite EN. replace (3 * (c + vertex_total todo))
        with (3 * c + 3 * vertex_total todo) by lia.
      apply set_if_step; [lia | exact Hn]. }
    assert (S3 : set_if (uvArray b) (uv g) (vOffset b * 2)
                 = Some ((U ++ padded (2 * c) (uv g))
                         ++ replicate (2 * vertex_total todo) 0%Q)).
    { rewrite EU. replace (2 * (c + vertex_total todo))
        with (2 * c + 2 * vertex_total todo) by lia.
      apply set_if_step; [lia | exact Hu]. }
    assert (S4 : set_if (colorArray b) (color g) (vOffset b * 3)
                 = Some ((C ++ padded (3 * c) (color g))
                         ++ replicate (3 * vertex_total todo) 0%Q)).
    { rewrite EC. replace (3 * (c + vertex_total todo))
        with (3 * c + 3 * vertex_total todo) by lia.
      apply set_if_step; [lia | exact Hc]. }
    rewrite merge_loop_cons, (merge_step_eq b g _ _ _ _ S1 S2 S3 S4).
    set (shift := match index g with
                  | Some ix =>
                      map (fun xi => ToUint32 (xi + Z.of_nat (vOffset b))) ix
                  | None => []
                  end).
    assert (Hix : indexArray b = None /\ index_step b g = (None, iOffset b)
                  \/ indexArray b <> None
                     /\ index_step b g
                        = (Some ((I ++ shift)
                                 ++ replicate (index_total todo) 0%Z),
                           length (I ++ shift))).
    { unfold index_step, shift. destruct EI as [EI | [EI HI]]; rewrite EI.
      - left. split; [reflexivity|]. destruct (index g); reflexivity.
      - right. split; [discriminate|]. destruct (index g) as [ix|].
        + rewrite <- HI.
          pose proof (write_indices_fill ix (vOffset b) I []
                        (length ix + index_total todo)) as W.
          simpl in W. rewrite W by lia. rewrite length_app, length_map.
          rewrite <- app_assoc. repeat f_equal. lia.
        + rewrite app_nil_r. simpl. f_equal. exact (eq_sym HI). }
    set (b1 := {| positionArray := _ |}).
    destruct (IH b1 (P ++ array (position g))
                (N ++ padded (3 * c) (normal g))
                (U ++ padded (2 * c) (uv g))
                (C ++ padded (3 * c) (color g)) (I ++ shift))
      as (b' & M & MP & MN & MU & MC & MI1 & MI2).
    + rewrite length_app. unfold b1; cbn [vOffset]. fold c. lia.
    + rewrite length_app, padded_length by exact Hn.
      unfold b1; cbn [vOffset]. fold c. lia.
    + rewrite length_app, padded_length by exact Hu.
      unfold b1; cbn [vOffset]. fold c. lia.
    + rewrite length_app, padded_length by exact Hc.
      unfold b1; cbn [vOffset]. fold c. lia.
    + reflexivity.
    + reflexivity.
    + reflexivity.
    + reflexivity.
    + unfold b1; cbn [indexArray iOffset].
      destruct Hix as [[_ ->] | [_ ->]]; cbn [fst snd]; auto.
    + exists b'. split; [exact M|].
      rewrite MP, MN, MU, MC. cbn [map concat]. rewrite <- !app_assoc. fold c.
      do 4 (split; [reflexivity|]).
      unfold b1 in MI1, MI2; cbn [indexArray vOffset] in MI1, MI2.
      destruct Hix as [[E0 E1] | [E0 E1]]; rewrite E1 in MI1, MI2;
        cbn [fst] in MI1, MI2.
      * split; [intros _; apply MI1; reflexivity | intros; contradiction].
      * split; [intros; contradiction|]. intros _.
        rewrite MI2 by discriminate. cbn [shifted_indices]. fold c shift.
        rewrite <- app_assoc. reflexivity.
Qed.

Lemma merge_run (gs : list BufferGeometry) :
  Forall well_formed gs ->
  exists b,
    merge_loop
      {| positionArray := Float32Array (vertex_total gs * 3);
         normalArray := Float32Array (vertex_total gs * 3);
         uvArray := Float32Array (vertex_total gs * 2);
         colorArray := Float32Array (vertex_total gs * 3);
         indexArray := if 0 <? index_total gs
                       then Some (Uint32Array (index_total gs)) else None;
         vOffset := 0; iOffset := 0 |} gs = Some b
    /\ positionArray b = concat (map (fun g => array (position g)) gs)
    /\ normalArray b
       = concat (map (fun g => padded (3 * count (position g)) (normal g)) gs)
    /\ uvArray b
       = concat (map (fun g => padded (2 * count (position g)) (uv g)) gs)
    /\ colorArray b
       = concat (map (fun g => padded (3 * count (position g)) (color g)) gs)
    /\ indexArray b = (if 0 <? index_total gs
                       then Some (shifted_indices 0 gs) else None).
Proof.
  intros Hwf.
  set (b0 := {| positionArray := _ |}).
  destruct (merge_loop_fill gs b0 [] [] [] [] [] Hwf)
    as (b & M & MP & MN & MU & MC & MI1 & MI2);
    try reflexivity;
    try (unfold b0; cbn [positionArray normalArray uvArray colorArray];
         unfold Float32Array; rewrite app_nil_l; f_equal; lia).
  - unfold b0; cbn [indexArray iOffset].
    destruct (0 <? index_total gs); [right | left]; split; reflexivity.
  - exists b. split; [exact M|]. repeat (split; [assumption|]).
    unfold b0 in MI1, MI2; cbn [indexArray vOffset] in MI1, MI2.
    destruct (0 <? index_total gs);
      [apply MI2; discriminate | apply MI1; reflexivity].
Qed.

Lemma mergeBufferGeometries_eq (gs : list BufferGeometry) :
  mergeBufferGeometries gs =
  b ← merge_loop
      {| positionArray := Float32Array (vertex_total gs * 3);
         normalArray := Float32Array (vertex_total gs * 3);
         uvArray := Float32Array (vertex_total gs * 2);
         colorArray := Float32Array (vertex_total gs * 3);
         indexArray := if 0 <? index_total gs
                       then Some (Uint32Array (index_total gs)) else None;
         vOffset := 0; iOffset := 0 |} gs;
  Some {| position := {| array := positionArray b; itemSize := 3 |};
          normal := Some {| array := normalArray b; itemSize := 3 |};
          uv := Some {| array := uvArray b; itemSize := 2 |};
          color := Some {| array := colorArray b; itemSize := 3 |};
          index := indexArray b |}.
Proof.
  unfold mergeBufferGeometries. rewrite count_fold. reflexivity.
Qed.

Lemma concat_positions_length (gs : list BufferGeometry) :
  Forall well_formed gs ->
  length (concat (map (fun g => array (position g)) gs)) = 3 * vertex_total gs.
Proof.
  induction 1 as [|g gs (_ & Hlen & _) _ IH]; [reflexivity|].
  cbn [map concat]. rewrite length_app, vertex_total_cons, IH, Hlen. lia.
Qed.

(** X23. Merging well-formed geometries succeeds; the merged position
    attribute has item size 3, holds the positions of the inputs one
    after the other, and counts as many vertices as the inputs have
    together. *)
Theorem merge_concatenates_positions (gs : list BufferGeometry) :
  Forall well_formed gs ->
  exists m,
    mergeBufferGeometries gs = Some m
    /\ array (position m) = concat (map (fun g => array (position g)) gs)
    /\ itemSize (position m) = 3
    /\ count (position m) = vertex_total gs.
Proof.
  intros Hwf. destruct (merge_run gs Hwf) as (b & M & MP & _).
  rewrite mergeBufferGeometries_eq, M. cbn [mbind option_bind].
  eexists. split; [reflexivity|]. cbn [position array itemSize].
  split; [exact MP|]. split; [reflexivity|].
  unfold count. cbn [array itemSize]. rewrite MP.
  rewrite concat_positions_length by exact Hwf.
  rewrite Nat.mul_comm. apply Nat.div_mul. discriminate.
Qed.


Lemma ToUint32_small (v : Z) : (0 <= v < 2 ^ 32)%Z -> ToUint32 v = v.
Proof. intros H. unfold ToUint32. apply Z.mod_small, H. Qed.

Lemma shifted_plain (v : nat) (gs : list BufferGeometry) :
  Forall index_in_range gs ->
  (Z.of_nat (v + vertex_total gs) <= 2 ^ 32)%Z ->
  shifted_indices v gs = plain_indices v gs.
Proof.
  intros Hin. revert v. induction Hin as [|g gs Hg _ IH]; intros v Hv;
    [reflexivity|].
  cbn [shifted_indices plain_indices]. rewrite vertex_total_cons in Hv.
  rewrite IH by lia. f_equal.
  unfold index_in_range in Hg. destruct (index g) as [ix|]; [|reflexivity].
  apply map_ext_in. intros xi Hxi.
  rewrite Forall_forall in Hg. apply list_elem_of_In in Hxi.
  specialize (Hg xi Hxi). apply ToUint32_small. lia.
Qed.

(** X25. The merged geometry has an index exactly when the inputs hold at
    least one index entry in total; it then lists the inputs' indices
    in order, each shifted by the number of vertices of the geometries
    before it. With indices that refer to existing vertices and at
    most 2^32 vertices the 32-bit storage changes no entry. *)
Theorem merge_shifts_indices (gs : list BufferGeometry) :
  Forall well_formed gs ->
  Forall index_in_range gs ->
  (Z.of_nat (vertex_total gs) <= 2 ^ 32)%Z ->
  exists m,
    mergeBufferGeometries gs = Some m
    /\ index m = (if 0 <? index_total gs then Some (plain_indices 0 gs)
                  else None)
    /\ length (plain_indices 0 gs) = index_total gs.
Proof.
  intros Hwf Hin Hv.
  destruct (merge_run gs Hwf) as (b & M & _ & _ & _ & _ & MI).
  rewrite mergeBufferGeometries_eq, M. cbn [mbind option_bind].
  eexists. split; [reflexivity|]. cbn [index]. rewrite MI.
  rewrite shifted_plain by assumption. split; [reflexivity|].
  generalize 0 at 1. clear. induction gs as [|g gs IH]; intros v;
    [reflexivity|].
  cbn [plain_indices]. rewrite length_app, IH, index_total_cons.
  destruct (index g); [rewrite length_map|]; reflexivity.
Qed.

(** Two triangles: the second one lacks normals; its indices 0, 2, 1
    become 3, 5, 4. *)
Lemma merge_shifts_indices_witness :
  let tri (z : Q) (n : option BufferAttribute) (ix : list Z) :=
    {| position := {| array := [0; 0; z; 1; 0; z; 0; 1; z]%Q; itemSize := 3 |};
       normal := n; uv := None; color := None; index := Some ix |} in
  let up := Some {| array := [0; 0; 1; 0; 0; 1; 0; 0; 1]%Q; itemSize := 3 |} in
  exists m,
    mergeBufferGeometries [tri 0%Q up [0; 1; 2]%Z; tri 1%Q None [0; 2; 1]%Z]
    = Some m
    /\ index m = Some [0; 1; 2; 3; 5; 4]%Z.
Proof.
  intros tri up.
  destruct (merge_shifts_indices
              [tri 0%Q up [0; 1; 2]%Z; tri 1%Q None [0; 2; 1]%Z])
    as (m & Hm & Hi & _).
  - repeat constructor; simpl; lia.
  - repeat constructor; vm_compute; intros H; discriminate H.
  - vm_compute. intros H. discriminate H.
  - exists m. split; [exact Hm | exact Hi].
Defined.

Lemma merge_concatenates_positions_witness :
  let tri (z : Q) :=
    {| position := {| array := [0; 0; z; 1; 0; z; 0; 1; z]%Q; itemSize := 3 |};
       normal := None; uv := None; color := None; index := None |} in
  exists m,
    mergeBufferGeometries [tri 0%Q; tri 1%Q] = Some m
    /\ count (position m) = 6.
Proof.
  intros tri.
  destruct (merge_concatenates_positions [tri 0%Q; tri 1%Q])
    as (m & Hm & _ & _ & Hc).
  - repeat constructor; simpl; lia.
  - exists m. split; [exact Hm | exact Hc].
Defined.


(** An input that holds an index without entries does not give the
    merged geometry an index. *)
Lemma merge_empty_index_is_dropped :
  forall m,
    mergeBufferGeometries
      [ {| position := {| array := [0; 0; 0]%Q; itemSize := 3 |};
           normal := None; uv := None; color := None; index := Some [] |} ]
    = Some m ->
    index m = None.
Proof. intros m H. vm_compute in H. inversion H. reflexivity. Qed.



End Merging.

(** ** The photo card crop *)

Section PhotoCard.

Import Polaroid.
Local Open Scope Q_scope.

Lemma aspect_gt_1 (w h : Q) : 0 < h -> (1 < w / h <-> h < w).
Proof.
  intros Hh. split.
  - intros Ha. destruct (Qlt_le_dec h w) as [Hlt | Hle]; [exact Hlt|].
    exfalso. apply (Qlt_not_le _ _ Ha).
    apply Qle_shift_div_r; [exact Hh | lra].
  - intros Hlt. apply Qlt_shift_div_l; [exact Hh | lra].
Qed.

(** X27. For an image of positive width and height the crop is the largest
    centred square: as wide as high, as large as the shorter side,
    inside the image, with equal margins on both sides of the longer
    axis and none on the shorter. *)
Theorem crop_is_centred_square (w h : Q) :
  0 < w -> 0 < h ->
  let '(sx, sy, sw, sh) := crop w h in
  sw == sh /\ sw <= w /\ sh <= h /\ (sw == w \/ sh == h)
  /\ 0 <= sx /\ 0 <= sy /\ sx + sw <= w /\ sy + sh <= h
  /\ sx == w - (sx + sw) /\ sy == h - (sy + sh).
Proof.
  intros Hw Hh. unfold crop.
  destruct (MediaPipe.lt_num 1 (w / h)) eqn:E.
  - apply lt_num_true in E. apply (proj1 (aspect_gt_1 w h Hh)) in E.
    unfold Qdiv. change (/ 2) with (1 # 2).
    repeat split; try lra; right; lra.
  - apply lt_num_false in E.
    assert (Hle : w <= h).
    { destruct (Qlt_le_dec h w) as [Hlt | Hle]; [|exact Hle].
      apply (proj2 (aspect_gt_1 w h Hh)) in Hlt. lra. }
    unfold Qdiv. change (/ 2) with (1 # 2).
    repeat split; try lra; left; lra.
Qed.

(** A 1600 x 900 image is cropped to the 900 x 900 square starting at
    x = 350. *)
Lemma crop_is_centred_square_witness :
  let '(sx, sy, sw, sh) := crop 1600 900 in
  sw == sh /\ sw <= 1600 /\ sh <= 900 /\ (sw == 1600 \/ sh == 900)
  /\ 0 <= sx /\ 0 <= sy /\ sx + sw <= 1600 /\ sy + sh <= 900
  /\ sx == 1600 - (sx + sw) /\ sy == 900 - (sy + sh).
Proof.
  apply (crop_is_centred_square 1600 900); reflexivity.
Defined.

End PhotoCard.

(** ** The film strip *)

Section Film.

Import App FilmStrip.
Local Open Scope Q_scope.

Lemma strip_of_app (l1 l2 : list (Z * Placement)) :
  strip_of (l1 ++ l2) = strip_of l1 ++ strip_of l2.
Proof. apply omap_app. Qed.

Lemma place_step (month active : Z) (fx scroll : Q) (idx : nat)
  (placed : list (Z * Placement)) (o : Obj.t) :
  (active =? Obj.id o)%Z = false ->
  place month active fx scroll (idx, placed) o =
  if Obj.isDeco o then (idx, placed ++ [(Obj.id o, Ornament)])
  else if (Obj.month o =? month)%Z then
    (S idx, placed ++ [(Obj.id o,
                        Strip (inject_Z (Z.of_nat idx) * (3 # 2) + fx + scroll))])
  else (idx, placed ++ [(Obj.id o, Hidden)]).
Proof. intros H. unfold place. rewrite H. reflexivity. Qed.

Lemma monthPhotos_cons (o : Obj.t) (objects : list Obj.t) (month : Z) :
  monthPhotos (o :: objects) month =
  if (Obj.month o =? month)%Z && negb (Obj.isDeco o)
  then o :: monthPhotos objects month else monthPhotos objects month.
Proof. reflexivity. Qed.

Lemma place_fold (month active : Z) (fx scroll : Q) (objects : list Obj.t)
  (idx : nat) (placed : list (Z * Placement)) :
  (forall o, In o objects -> Obj.id o <> active) ->
  strip_of (snd (fold_left (place month active fx scroll) objects (idx, placed)))
  = strip_of placed
    ++ imap (fun k o => (Obj.id o,
                         inject_Z (Z.of_nat (idx + k)) * (3 # 2) + fx + scroll))
            (monthPhotos objects month).
Proof.
  revert idx placed. induction objects as [|o objects IH];
    intros idx placed Hact.
  - simpl. rewrite app_nil_r. reflexivity.
  - assert (Hrest : forall o', In o' objects -> Obj.id o' <> active).
    { intros o' Ho'. apply Hact. right. exact Ho'. }
    assert (Ho : (active =? Obj.id o)%Z = false).
    { apply Z.eqb_neq. intros E. apply (Hact o); [left; reflexivity|].
      symmetry. exact E. }
    cbn [fold_left]. rewrite place_step by exact Ho.
    rewrite monthPhotos_cons.
    destruct (Obj.isDeco o) eqn:D.
    + rewrite andb_false_r. rewrite IH by exact Hrest.
      rewrite strip_of_app. simpl. rewrite app_nil_r. reflexivity.
    + destruct (Obj.month o =? month)%Z eqn:M; simpl andb; cbv iota.
      * rewrite IH by exact Hrest. rewrite strip_of_app. simpl strip_of.
        rewrite <- app_assoc. f_equal. simpl. rewrite Nat.add_0_r.
        f_equal. apply imap_ext. intros k o' _. simpl.
        repeat f_equal. lia.
      * rewrite IH by exact Hrest. rewrite strip_of_app. simpl.
        rewrite app_nil_r. reflexivity.
Qed.

(** X28. In film mode with no photo zoomed, the photos of the active month,
    and only they, are placed on the strip, in object order, 1.5 apart;
    the strip is centred: the k-th place from the left and the k-th
    from the right lie symmetric about the scroll offset. *)
Theorem film_strip_centred (objects : list Obj.t) (month active : Z)
  (scroll : Q) :
  (forall o, In o objects -> Obj.id o <> active) ->
  let photos := monthPhotos objects month in
  let n := length photos in
  strip_of (layout objects month active scroll)
  = imap (fun k o => (Obj.id o, slot objects month scroll k)) photos
  /\ forall k, (k < n)%nat ->
       slot objects month scroll (S k) - slot objects month scroll k == 3 # 2
       /\ slot objects month scroll k + slot objects month scroll (n - 1 - k)
          == 2 * scroll.
Proof.
  intros Hact photos n. split.
  - unfold layout. rewrite place_fold by exact Hact. reflexivity.
  - intros k Hk. unfold slot, filmX. fold photos. fold n.
    replace (Z.of_nat (n - 1 - k)) with (Z.of_nat n + - (1 + Z.of_nat k))%Z
      by lia.
    replace (Z.of_nat (S k)) with (Z.of_nat k + 1)%Z by lia.
    rewrite !inject_Z_plus, inject_Z_opp, inject_Z_plus.
    unfold Qdiv. change (/ 2) with (1 # 2).
    change (inject_Z 1) with 1. split; lra.
Qed.

(** Month 3 of the default scene: 13 photos, ids 2, 14, ..., 146. *)
Lemma film_strip_centred_witness :
  let objects := build_objects [] in
  length (monthPhotos objects 3) = 13%nat
  /\ slot objects 3 0 0 + slot objects 3 0 12 == 0.
Proof.
  intros objects.
  assert (Hn : length (monthPhotos objects 3) = 13%nat) by reflexivity.
  split; [exact Hn|].
  destruct (film_strip_centred objects 3 (-1) 0) as [_ H].
  - intros o Ho. destruct (build_objects_id [] o Ho) as [Hid _]. lia.
  - destruct (H 0%nat) as [_ Hc]; [rewrite Hn; lia|].
    rewrite Hn in Hc. exact Hc.
Defined.

End Film.

(** ** The easing functions *)

Section Easing.

Import Shaders.
Local Open Scope R_scope.

Lemma easeInOutQuint_low (x : R) : x < 1 / 2 -> easeInOutQuint x = 16 * x ^ 5.
Proof.
  intros H. unfold easeInOutQuint. destruct (Rlt_dec x (1 / 2)); [ring | lra].
Qed.

Lemma easeInOutQuint_high (x : R) :
  1 / 2 <= x -> easeInOutQuint x = 1 - 16 * (1 - x) ^ 5.
Proof.
  intros H. unfold easeInOutQuint. destruct (Rlt_dec x (1 / 2)); [lra | field].
Qed.

Lemma pow5_bounds (a b : R) : 0 <= a <= b -> 0 <= a ^ 5 <= b ^ 5.
Proof. intros H. split; [apply pow_le; lra | apply pow_incr, H]. Qed.

Lemma half_pow5 : (1 / 2) ^ 5 = 1 / 32.
Proof. field. Qed.

(** X29. Both easings fix 0 and 1, map [0,1] into [0,1] and never decrease
    on [0,1]; the quint ease is continuous across its two branches at
    1/2 and point-symmetric about (1/2, 1/2). Hence the blend factor
    the shaders derive from a progress in [0,1] is again in [0,1]. *)
Theorem easings_are_monotone_maps (x y : R) :
  0 <= x <= y -> y <= 1 ->
  easeInOutQuint 0 = 0 /\ easeInOutQuint 1 = 1
  /\ easeOutQuart 0 = 0 /\ easeOutQuart 1 = 1
  /\ 0 <= easeInOutQuint x <= easeInOutQuint y /\ easeInOutQuint y <= 1
  /\ 0 <= easeOutQuart x <= easeOutQuart y /\ easeOutQuart y <= 1
  /\ 16 * (1 / 2) ^ 5 = easeInOutQuint (1 / 2)
  /\ easeInOutQuint (1 - x) = 1 - easeInOutQuint x.
Proof.
  intros Hxy Hy.
  assert (Hq : forall a b, 0 <= a <= b -> b <= 1 ->
                 0 <= easeInOutQuint a <= easeInOutQuint b
                 /\ easeInOutQuint b <= 1).
  { intros a b Hab Hb.
    destruct (Rlt_dec b (1 / 2)) as [Hbl | Hbh].
    - rewrite !easeInOutQuint_low by lra.
      pose proof (pow5_bounds a b Hab).
      assert (b ^ 5 <= (1 / 2) ^ 5) by (apply pow_incr; lra).
      rewrite half_pow5 in *. lra.
    - destruct (Rlt_dec a (1 / 2)) as [Hal | Hah].
      + rewrite easeInOutQuint_low, easeInOutQuint_high by lra.
        assert (0 <= a ^ 5 <= (1 / 2) ^ 5) by (apply pow5_bounds; lra).
        assert (0 <= (1 - b) ^ 5 <= (1 / 2) ^ 5) by (apply pow5_bounds; lra).
        rewrite half_pow5 in *. lra.
      + rewrite !easeInOutQuint_high by lra.
        assert (0 <= (1 - b) ^ 5 <= (1 - a) ^ 5) by (apply pow5_bounds; lra).
        assert ((1 - a) ^ 5 <= (1 / 2) ^ 5) by (apply pow_incr; lra).
        rewrite half_pow5 in *. lra. }
  assert (Hr : 0 <= easeOutQuart x <= easeOutQuart y /\ easeOutQuart y <= 1).
  { unfold easeOutQuart.
    assert (0 <= (1 - y) ^ 4) by (apply pow_le; lra).
    assert ((1 - y) ^ 4 <= (1 - x) ^ 4) by (apply pow_incr; lra).
    assert ((1 - x) ^ 4 <= 1 ^ 4) by (apply pow_incr; lra).
    rewrite pow1 in *. lra. }
  split; [rewrite easeInOutQuint_low by lra; ring|].
  split; [rewrite easeInOutQuint_high by lra; ring|].
  split; [unfold easeOutQuart; ring|].
  split; [unfold easeOutQuart; ring|].
  destruct (Hq x y Hxy Hy) as [H1 H2]. destruct Hr as [H3 H4].
  split; [exact H1|]. split; [exact H2|]. split; [exact H3|].
  split; [exact H4|].
  split; [rewrite easeInOutQuint_high by lra; field|].
  destruct (Rlt_dec x (1 / 2)) as [Hl | Hh].
  - rewrite (easeInOutQuint_low x), easeInOutQuint_high by lra.
    replace (1 - (1 - x)) with x by ring. ring.
  - destruct (Rle_lt_or_eq_dec (1 / 2) x) as [Hgt | Heq]; [lra| |].
    + rewrite (easeInOutQuint_high x), easeInOutQuint_low by lra. ring.
    + subst x. replace (1 - 1 / 2) with (1 / 2) by field.
      rewrite easeInOutQuint_high by lra. field.
Qed.

Lemma easings_are_monotone_maps_witness :
  0 <= easeInOutQuint (1 / 4) <= easeInOutQuint (3 / 4)
  /\ easeInOutQuint (3 / 4) <= 1.
Proof.
  destruct (easings_are_monotone_maps (1 / 4) (3 / 4))
    as (_ & _ & _ & _ & H1 & H2 & _); [lra | lra |].
  split; [exact H1 | exact H2].
Defined.

End Easing.

(** ** The chaos positions *)

Section ChaosPositions.

Import Scatter.
Local Open Scope R_scope.







End ChaosPositions.
